(** * VanitySearch, main.cpp: key-pair derivation, partial-key reconstruction
      and the result sink.

    The functions of [src/main.cpp] that handle key material
    ([parseFile], [generateKeyPair], [outputAdd], the [CHECK_ADDR] macro and
    [reconstructAdd]) are embedded as Rocq functions.  Their effects
    (terminal and file output, [exit], calls into the hash and curve
    libraries) are threaded through a small trace monad, so that statements
    such as "no curve operation happens" or "nothing is written to the sink"
    are statements about the recorded trace. *)

From Stdlib Require Import ZArith List String Ascii Bool Lia.
From Stdlib Require DecimalString HexadecimalString DecimalZ.
From Stdlib.Strings Require Import Byte.
Import ListNotations.

Local Open Scope Z_scope.

(** ** Text helpers *)

(** The characters that C string literals write as [\n] and [\033]. *)
Definition LF : string := String (ascii_of_nat 10) EmptyString.
Definition ESC : string := String (ascii_of_nat 27) EmptyString.

Definition CLR_RESET : string := (ESC ++ "[0m")%string.
Definition CLR_RED : string := (ESC ++ "[31m")%string.
Definition CLR_YELLOW : string := (ESC ++ "[33m")%string.

(** [printf("%d", i)]. *)
Definition dec (i : Z) : string :=
  DecimalString.NilZero.string_of_int (Z.to_int i).

(** [s.substr(0, len)]: at most [len] leading characters, never fails. *)
Definition substr0 (len : nat) (s : string) : string := String.substring 0 len s.

(** [s.substr(pos)]: the tail from [pos]; [std::out_of_range] is thrown
    when [pos] is past the end, which is [None] here. *)
Fixpoint substr (pos : nat) (s : string) : option string :=
  match pos, s with
  | O, _ => Some s
  | S _, EmptyString => None
  | S pos', String _ s' => substr pos' s'
  end.

(** [s.data()[0]]: the first character, or the terminating NUL of an empty
    string. *)
Definition data0 (s : string) : ascii :=
  match s with
  | EmptyString => Ascii.zero
  | String c _ => c
  end.

(** ** Effects *)

(** Arbitrary-precision integers of class [Int] are read as mathematical
    integers; a negative value is the decoder's "invalid key" sentinel. *)
Definition Int := Z.

Definition IsNegative (x : Int) : bool := x <? 0.

Inductive FILE : Type :=
| stdout
| file (path : string).

(** What the program does to the outside world, in program order. *)
Inductive event : Type :=
| EvPrintf (text : string)
| EvFopen (path mode : string) (ok : bool)
| EvFprintf (f : FILE) (text : string)
| EvFclose (path : string)
| EvGetSeed (size : Z)
| EvPbkdf2 (pass salt : string) (iterations : Z) (dkLen : Z)
| EvSha256 (msg : list byte)
| EvComputePublicKey (k : Int).

(** How a computation stops. *)
Inductive outcome (A : Type) : Type :=
| Returns (a : A)
| Exits (status : Z)
| BadIndex (i : Z)
| Throws
| OutOfFuel.

Arguments Returns {A} a.
Arguments Exits {A} status.
Arguments BadIndex {A} i.
Arguments Throws {A}.
Arguments OutOfFuel {A}.

Definition M (A : Type) : Type := list event * outcome A.

Definition ret {A} (a : A) : M A := ([], Returns a).

Definition bind {A B} (m : M A) (k : A -> M B) : M B :=
  match m with
  | (t, Returns a) => let (t', o) := k a in (t ++ t', o)
  | (t, Exits c) => (t, Exits c)
  | (t, BadIndex i) => (t, BadIndex i)
  | (t, Throws) => (t, Throws)
  | (t, OutOfFuel) => (t, OutOfFuel)
  end.

Declare Scope prog_scope.
Delimit Scope prog_scope with prog.
Notation "x <- m ;; k" := (bind m (fun x => k))
  (at level 61, m at next level, right associativity) : prog_scope.
Notation "m ;; k" := (bind m (fun _ => k))
  (at level 61, right associativity) : prog_scope.
Local Open Scope prog_scope.

Definition emit (e : event) : M unit := ([e], Returns tt).
Definition exit {A} (status : Z) : M A := ([], Exits status).
Definition printf (text : string) : M unit := emit (EvPrintf text).
Definition fprintf (f : FILE) (text : string) : M unit := emit (EvFprintf f text).

Definition trace {A} (m : M A) : list event := fst m.
Definition result {A} (m : M A) : outcome A := snd m.

(** ** Enumerations of Vanity.h *)

Inductive AddrType : Type := P2PKH | P2SH | BECH32.

Inductive SearchMode : Type :=
| SEARCH_COMPRESSED
| SEARCH_UNCOMPRESSED
| SEARCH_BOTH.

Definition SearchMode_eqb (a b : SearchMode) : bool :=
  match a, b with
  | SEARCH_COMPRESSED, SEARCH_COMPRESSED
  | SEARCH_UNCOMPRESSED, SEARCH_UNCOMPRESSED
  | SEARCH_BOTH, SEARCH_BOTH => true
  | _, _ => false
  end.

(** ** Collaborators outside main.cpp *)

(** The operating system as the program sees it: which files can be read
    (and what they hold), which can be opened for appending, and the text
    of [strerror(errno)] after a failed open. *)
Record OS : Type := {
  read_file : string -> option string;
  can_append : string -> bool;
  strerror : string -> string;
  (** [printf("%5.1f", ...)] of the loading progress, from the number of
      lines read and the address estimate; floating point is kept opaque. *)
  progress_text : Z -> Z -> string
}.

(** hash/sha512.h, hash/sha256.h and the printing method of [Int].
    [pbkdf2_hmac_sha512 dkLen pass salt iterations] is the content of the
    output buffer, [sha256 msg] the digest. *)
Record Lib : Type := {
  pbkdf2_hmac_sha512 : nat -> string -> string -> Z -> list byte;
  sha256 : list byte -> list byte;
  GetBase16 : Int -> string
}.

(** Both hash functions fill a caller-supplied buffer of known size. *)
Definition hash_lengths (lib : Lib) : Prop :=
  (forall n pass salt it,
      List.length (pbkdf2_hmac_sha512 lib n pass salt it) = n)
  /\ (forall msg, List.length (sha256 lib msg) = 32%nat).

(** Class [Secp256K1] (SECP256k1.h).  [DecodePrivateKey] returns the scalar
    together with the value found in its [bool *compressed] out-parameter
    after the call; a negative scalar signals text that could not be
    decoded.  What the methods print by themselves is not part of the
    trace. *)
Record Secp256K1 : Type := {
  Point : Type;
  ComputePublicKey : Int -> Point;
  GetAddress : AddrType -> bool -> Point -> string;
  GetPrivAddress : bool -> Int -> string;
  GetPublicKeyHex : bool -> Point -> string;
  DecodePrivateKey : string -> Int * bool
}.

(** [Timer::getSeed]: the process-wide source of random text. *)
Definition Timer : Type := Z -> string.

(** ** Scalars modulo the group order *)

Definition hex_digit (c : ascii) : option Z :=
  let n := Z.of_nat (nat_of_ascii c) in
  if (48 <=? n) && (n <=? 57) then Some (n - 48)
  else if (97 <=? n) && (n <=? 102) then Some (n - 87)
  else if (65 <=? n) && (n <=? 70) then Some (n - 55)
  else None.

Fixpoint SetBase16_from (acc : Z) (s : string) : Z :=
  match s with
  | EmptyString => acc
  | String c s' =>
      match hex_digit c with
      | Some d => SetBase16_from (16 * acc + d) s'
      | None => SetBase16_from acc s'
      end
  end.

(** [Int::SetBase16] on a string of hexadecimal digits. *)
Definition SetBase16 (s : string) : Int := SetBase16_from 0 s.

(** Modelled from the spec: the group order [n] of secp256k1, which
    [Secp256K1::Init] (not in main.cpp) stores in [secp->order]. *)
Definition order : Int :=
  SetBase16 "FFFFFFFFFFFFFFFFFFFFFFFFFFFFFFFEBAAEDCE6AF48A03BBFD25E8CD0364141".

(** Modelled from the spec: [Int::ModAddK1order], "modAdd(a,b) reducing
    modulo curve order n". *)
Definition ModAddK1order (a b : Int) : Int := (a + b) mod order.

(** Modelled from the spec: [Int::ModMulK1order], "modMul(a,b) reducing
    modulo curve order n". *)
Definition ModMulK1order (a b : Int) : Int := (a * b) mod order.

(** [Int::Neg] and [Int::Add]: plain negation and addition. *)
Definition Neg (a : Int) : Int := - a.
Definition Add (a b : Int) : Int := a + b.

(** The integer held by an [Int] whose limbs were cleared by [SetInt32(0)]
    and whose [bits64] storage then received the bytes [d] from its first
    address on (least significant byte first, as on the x86 targets of the
    program). *)
Fixpoint Int_of_bits64 (d : list byte) : Int :=
  match d with
  | [] => 0
  | b :: d' => Z.of_N (Byte.to_N b) + 256 * Int_of_bits64 d'
  end.

(** C [int]: the value an out-of-range result wraps to. *)
Definition int32 (x : Z) : Z := (x + 2 ^ 31) mod 2 ^ 32 - 2 ^ 31.

(** ** parseFile *)

Definition isspace (c : ascii) : bool :=
  let n := nat_of_ascii c in
  (n =? 32)%nat || ((9 <=? n)%nat && (n <=? 13)%nat).

(** The successive results of [getline] on a stream holding [s]. *)
Fixpoint getlines (s : string) : list string :=
  match s with
  | EmptyString => []
  | String c s' =>
      if Ascii.eqb c (ascii_of_nat 10) then EmptyString :: getlines s'
      else
        match getlines s' with
        | [] => [String c EmptyString]
        | l :: ls => String c l :: ls
        end
  end.

(** The [pop_back] loop: drop the white space that ends the line. *)
Fixpoint rstrip (s : string) : string :=
  match s with
  | EmptyString => EmptyString
  | String c s' =>
      match rstrip s' with
      | EmptyString => if isspace c then EmptyString else String c EmptyString
      | r => String c r
      end
  end.

Section ParseFile.

Variable os : OS.

Definition fopen (path mode : string) (ok : bool) : M bool :=
  ([EvFopen path mode ok], Returns ok).

Definition fclose (path : string) : M unit := emit (EvFclose path).

Fixpoint parseFile_loop (loaddingProgress : bool) (nbAddr : Z)
    (input : list string) (lines : list string) (nbLine : Z)
    : M (list string) :=
  match input with
  | [] => ret lines
  | line :: input' =>
      let line := rstrip line in
      if (0 <? String.length line)%nat then
        let lines := lines ++ [line] in
        let nbLine := nbLine + 1 in
        (if loaddingProgress && (nbLine mod 50000 =? 0) then
           printf ("[Loading input file " ++ progress_text os nbLine nbAddr
                   ++ "%]" ++ String (ascii_of_nat 13) EmptyString)%string
         else ret tt) ;;
        parseFile_loop loaddingProgress nbAddr input' lines nbLine
      else parseFile_loop loaddingProgress nbAddr input' lines nbLine
  end.

Definition parseFile (fileName : string) (lines : list string)
    : M (list string) :=
  match read_file os fileName with
  | None =>
      fopen fileName "rb" false ;;
      printf (CLR_RED ++ "Error: Cannot open " ++ fileName ++ " "
              ++ strerror os fileName ++ CLR_RESET ++ LF)%string ;;
      exit (-1)
  | Some content =>
      fopen fileName "rb" true ;;
      let sz := Z.of_nat (String.length content) in
      let nbAddr := sz / 33 in
      let loaddingProgress := 100000 <? sz in
      fclose fileName ;;
      lines <- parseFile_loop loaddingProgress nbAddr (getlines content)
                 lines 0 ;;
      (if loaddingProgress then
         printf ("[Loading input file 100.0%]" ++ LF)%string
       else ret tt) ;;
      ret lines
  end.

End ParseFile.

(** ** generateKeyPair *)

Section GenerateKeyPair.

Variable lib : Lib.
Variable secp : Secp256K1.
Variable getSeed : Timer.

Definition Timer_getSeed (size : Z) : M string :=
  ([EvGetSeed size], Returns (getSeed size)).

Definition call_pbkdf2_hmac_sha512 (dkLen : nat) (pass salt : string)
    (iterations : Z) : M (list byte) :=
  ([EvPbkdf2 pass salt iterations (Z.of_nat dkLen)],
   Returns (pbkdf2_hmac_sha512 lib dkLen pass salt iterations)).

Definition call_sha256 (msg : list byte) : M (list byte) :=
  ([EvSha256 msg], Returns (sha256 lib msg)).

Definition call_ComputePublicKey (k : Int) : M (Point secp) :=
  ([EvComputePublicKey k], Returns (ComputePublicKey secp k)).

Definition DQ : string := String (ascii_of_nat 34) EmptyString.

Definition generateKeyPair (seed : string) (searchMode : SearchMode)
    (paranoiacSeed : bool) : M unit :=
  (if (String.length seed <? 8)%nat then
     printf (CLR_RED
             ++ "Error: Use a seed of at least 8 characters to generate a key pair"
             ++ CLR_RESET ++ LF)%string ;;
     printf ("Ex: VanitySearch -s " ++ DQ ++ "A Strong Password" ++ DQ
             ++ " -kp" ++ LF)%string ;;
     exit (-1)
   else ret tt) ;;
  seed <- (if paranoiacSeed then
             r <- Timer_getSeed 32 ;; ret (seed ++ r)%string
           else ret seed) ;;
  (if SearchMode_eqb searchMode SEARCH_BOTH then
     printf (CLR_RED
             ++ "Error: Use compressed or uncompressed to generate a key pair"
             ++ CLR_RESET ++ LF)%string ;;
     exit (-1)
   else ret tt) ;;
  let compressed := SearchMode_eqb searchMode SEARCH_COMPRESSED in
  let salt := "VanitySearch"%string in
  hseed <- call_pbkdf2_hmac_sha512 64 seed salt 2048 ;;
  digest <- call_sha256 hseed ;;
  let privKey := Int_of_bits64 digest in
  p <- call_ComputePublicKey privKey ;;
  printf ("Priv : " ++ GetPrivAddress secp compressed privKey ++ LF)%string ;;
  printf ("Pub  : " ++ GetPublicKeyHex secp compressed p ++ LF)%string.

End GenerateKeyPair.

(** ** outputAdd *)

Section OutputAdd.

Variable os : OS.

Definition outputAdd (outputFile : string) (addrType : AddrType)
    (addr pAddr pAddrHex : string) : M unit :=
  fh <- (if (0 <? String.length outputFile)%nat then
           ok <- fopen outputFile "a" (can_append os outputFile) ;;
           if ok then ret (file outputFile, true)
           else
             printf (CLR_RED ++ "Cannot open " ++ outputFile ++ " for writing"
                     ++ CLR_RESET ++ LF)%string ;;
             ret (stdout, false)
         else ret (stdout, false)) ;;
  let f := fst fh in
  let needToClose := snd fh in
  fprintf f (LF ++ "Pub Addr: " ++ addr ++ LF)%string ;;
  match addrType with
  | P2PKH => fprintf f ("Priv (WIF): p2pkh:" ++ pAddr ++ LF)%string
  | P2SH => fprintf f ("Priv (WIF): p2wpkh-p2sh:" ++ pAddr ++ LF)%string
  | BECH32 => fprintf f ("Priv (WIF): p2wpkh:" ++ pAddr ++ LF)%string
  end ;;
  fprintf f ("Priv (HEX): 0x" ++ pAddrHex ++ LF)%string ;;
  if needToClose then fclose outputFile else ret tt.

End OutputAdd.

(** ** CHECK_ADDR and reconstructAdd *)

Section ReconstructAdd.

Variable os : OS.
Variable lib : Lib.
Variable secp : Secp256K1.

(** [lines[i]] for a C [int] index: outside the vector the behaviour is
    undefined, which stops the model with [BadIndex]. *)
Definition vector_at (lines : list string) (i : Z) : M string :=
  match (if i <? 0 then None else nth_error lines (Z.to_nat i)) with
  | Some l => ret l
  | None => ([], BadIndex i)
  end.

Definition substr_or_throw (pos : nat) (s : string) : M string :=
  match substr pos s with
  | Some r => ret r
  | None => ([], Throws)
  end.

(** The [switch] on the first character of the address; [None] is its
    [default] branch. *)
Definition addrType_of (c : ascii) : option AddrType :=
  if Ascii.eqb c "1" then Some P2PKH
  else if Ascii.eqb c "3" then Some P2SH
  else if Ascii.eqb c "b" || Ascii.eqb c "B" then Some BECH32
  else None.

Section LoopBody.

Variable outputFile : string.
Variables lambda lambda2 privKey : Int.
Variable compressed : bool.
Variable lines : list string.

(** The macro, with the local variables it reads as arguments and the
    value it leaves in [found] as result. *)
Definition CHECK_ADDR (addrType : AddrType) (addr : string)
    (partialPrivKey e : Int) (found : bool) : M bool :=
  let fullPriv := ModAddK1order e partialPrivKey in
  p <- call_ComputePublicKey secp fullPriv ;;
  let cAddr := GetAddress secp addrType compressed p in
  if String.eqb cAddr addr then
    let pAddr := GetPrivAddress secp compressed fullPriv in
    let pAddrHex := GetBase16 lib fullPriv in
    outputAdd os outputFile addrType addr pAddr pAddrHex ;;
    ret true
  else ret found.

(** The part of the loop body after the [else] of the compression test. *)
Definition reconstruct_key (i : Z) (addrType : AddrType)
    (addr partialPrivAddr : string) (partialPrivKey : Int) : M unit :=
  let found := false in
  (* No sym, no endo *)
  let e := privKey in
  found <- CHECK_ADDR addrType addr partialPrivKey e found ;;
  (* No sym, endo 1 *)
  let e := privKey in
  let e := ModMulK1order e lambda in
  found <- CHECK_ADDR addrType addr partialPrivKey e found ;;
  (* No sym, endo 2 *)
  let e := privKey in
  let e := ModMulK1order e lambda2 in
  found <- CHECK_ADDR addrType addr partialPrivKey e found ;;
  (* sym, no endo *)
  let e := privKey in
  let e := Neg e in
  let e := Add e order in
  found <- CHECK_ADDR addrType addr partialPrivKey e found ;;
  (* sym, endo 1 *)
  let e := privKey in
  let e := ModMulK1order e lambda in
  let e := Neg e in
  let e := Add e order in
  found <- CHECK_ADDR addrType addr partialPrivKey e found ;;
  (* sym, endo 2 *)
  let e := privKey in
  let e := ModMulK1order e lambda2 in
  let e := Neg e in
  let e := Add e order in
  found <- CHECK_ADDR addrType addr partialPrivKey e found ;;
  if negb found then
    printf (CLR_RED ++ "Unable to reconstruct final key from partialkey line "
            ++ dec i ++ CLR_RESET ++ LF ++ " Addr: " ++ addr ++ LF
            ++ " PartKey: " ++ partialPrivAddr ++ LF)%string
  else ret tt.

(** One pass through the body of the [for] loop; [continue] is a plain
    return. *)
Definition reconstruct_record (i : Z) : M unit :=
  l0 <- vector_at lines i ;;
  if String.eqb (substr0 12 l0) "PubAddress: " then
    addr <- substr_or_throw 12 l0 ;;
    match addrType_of (data0 addr) with
    | None =>
        printf (CLR_RED ++ "Invalid partialkey info file at line " ++ dec i
                ++ CLR_RESET ++ LF)%string ;;
        printf (CLR_RED ++ addr ++ " Address format not supported"
                ++ CLR_RESET ++ LF)%string ;;
        ret tt
    | Some addrType =>
        l1 <- vector_at lines (i + 1) ;;
        partialPrivAddr <-
          (if String.eqb (substr0 13 l1) "PartialPriv: " then
             substr_or_throw 13 l1
           else
             printf (CLR_RED ++ "Invalid partialkey info file at line "
                     ++ dec i ++ " (" ++ DQ ++ "PartialPriv: " ++ DQ
                     ++ " expected)" ++ CLR_RESET ++ LF)%string ;;
             exit (-1)) ;;
        let dk := DecodePrivateKey secp partialPrivAddr in
        let partialPrivKey := fst dk in
        let partialMode := snd dk in
        (if IsNegative privKey then
           printf (CLR_RED ++ "Invalid partialkey info file at line " ++ dec i
                   ++ CLR_RESET ++ LF)%string ;;
           exit (-1)
         else ret tt) ;;
        if negb (Bool.eqb partialMode compressed) then
          printf (CLR_YELLOW ++ "Warning, Invalid partialkey at line " ++ dec i
                  ++ " (Wrong compression mode, ignoring key)"
                  ++ CLR_RESET ++ LF)%string ;;
          ret tt
        else
          reconstruct_key i addrType addr partialPrivAddr partialPrivKey
    end
  else
    printf (CLR_RED ++ "Invalid partialkey info file at line " ++ dec i
            ++ " (" ++ DQ ++ "PubAddress: " ++ DQ ++ " expected)"
            ++ CLR_RESET ++ LF)%string ;;
    exit (-1).

(** [for (int i = ...; i < (int)lines.size(); i += 2)], entered with the
    current value of [i]. *)
Fixpoint reconstruct_loop (fuel : nat) (i : Z) : M unit :=
  if i <? int32 (Z.of_nat (List.length lines)) then
    match fuel with
    | O => ([], OutOfFuel)
    | S fuel' =>
        reconstruct_record i ;;
        reconstruct_loop fuel' (int32 (i + 2))
    end
  else ret tt.

End LoopBody.

Definition reconstructAdd (fileName outputFile privAddr : string) : M unit :=
  let lambda :=
    SetBase16 "5363ad4cc05c30e0a5261c028812645a122e22ea20816678df02967c1b23bd72" in
  let lambda2 :=
    SetBase16 "ac9c52b33fa3cf1f5ad9e3fd77ed9ba4a880b9fc8ec739c2e0cfc810b51283ce" in
  let dk := DecodePrivateKey secp privAddr in
  let privKey := fst dk in
  let compressed := snd dk in
  (if IsNegative privKey then exit (-1) else ret tt) ;;
  lines <- parseFile os fileName [] ;;
  reconstruct_loop outputFile lambda lambda2 privKey compressed lines
    (List.length lines) 0.

End ReconstructAdd.

(** ** getInt and getInts *)

(** [std::stoi] in base 10, as [strtol] reads: leading white space, an
    optional sign, then the longest run of digits; anything after it is
    ignored.  Without a digit there it throws [std::invalid_argument], and
    [std::out_of_range] when the number does not fit an [int]. *)
Inductive stoi_result : Type :=
| stoi_value (v : Z)
| stoi_invalid_argument
| stoi_out_of_range.

Definition is_digit (c : ascii) : bool :=
  let n := nat_of_ascii c in (48 <=? n)%nat && (n <=? 57)%nat.

Fixpoint skip_space (s : string) : string :=
  match s with
  | EmptyString => EmptyString
  | String c s' => if isspace c then skip_space s' else s
  end.

Fixpoint digits_value (acc : Z) (s : string) : Z :=
  match s with
  | EmptyString => acc
  | String c s' =>
      if is_digit c then
        digits_value (10 * acc + (Z.of_nat (nat_of_ascii c) - 48)) s'
      else acc
  end.

Definition starts_with_digit (s : string) : bool :=
  match s with
  | EmptyString => false
  | String c _ => is_digit c
  end.

Definition stoi (str : string) : stoi_result :=
  let s := skip_space str in
  let negative := Ascii.eqb (data0 s) "-" in
  let s := match s with
           | String c s' =>
               if Ascii.eqb c "-" || Ascii.eqb c "+" then s' else s
           | EmptyString => s
           end in
  if starts_with_digit s then
    let v := digits_value 0 s in
    let v := if negative then - v else v in
    if (- 2 ^ 31 <=? v) && (v <=? 2 ^ 31 - 1) then stoi_value v
    else stoi_out_of_range
  else stoi_invalid_argument.

(** [std::stoi] inside the [try] blocks of [getInt] and [getInts]: the
    handler catches [std::invalid_argument] only, so [std::out_of_range]
    leaves the function as an exception. *)
Definition stoi_in_try (name str : string) : M Z :=
  match stoi str with
  | stoi_value r => ret r
  | stoi_invalid_argument =>
      printf (CLR_RED ++ "Invalid " ++ name ++ " argument, number expected"
              ++ CLR_RESET ++ LF)%string ;;
      exit (-1)
  | stoi_out_of_range => ([], Throws)
  end.

Definition getInt (name v : string) : M Z := stoi_in_try name v.

(** [text.find(sep, start)]; [None] is [string::npos]. *)
Fixpoint find_from (sep : ascii) (start : nat) (text : string) : option nat :=
  match start, text with
  | _, EmptyString => None
  | O, String c text' =>
      if Ascii.eqb c sep then Some O
      else option_map S (find_from sep O text')
  | S start', String _ text' => option_map S (find_from sep start' text')
  end.

(** [text.substr(pos, len)] and [text.substr(pos)], throwing when [pos] is
    past the end. *)
Definition substr_len (pos len : nat) (text : string) : M string :=
  match substr pos text with
  | Some r => ret (substr0 len r)
  | None => ([], Throws)
  end.

Definition substr_from (pos : nat) (text : string) : M string :=
  match substr pos text with
  | Some r => ret r
  | None => ([], Throws)
  end.

(** The [while] loop of [getInts] and the conversion that follows it,
    entered with the current [start] and [tokens]. *)
Fixpoint getInts_loop (fuel : nat) (name text : string) (sep : ascii)
    (start : nat) (tokens : list Z) : M (list Z) :=
  match find_from sep start text with
  | Some end_ =>
      match fuel with
      | O => ([], OutOfFuel)
      | S fuel' =>
          piece <- substr_len start (end_ - start) text ;;
          item <- stoi_in_try name piece ;;
          getInts_loop fuel' name text sep (end_ + 1) (tokens ++ [item])
      end
  | None =>
      piece <- substr_from start text ;;
      item <- stoi_in_try name piece ;;
      ret (tokens ++ [item])
  end.

(** The result is the content of [tokens] on return; the vector is
    cleared first. *)
Definition getInts (name : string) (tokens : list Z) (text : string)
    (sep : ascii) : M (list Z) :=
  let tokens : list Z := [] in
  getInts_loop (String.length text) name text sep 0 tokens.

(** The published endomorphism constants of secp256k1. *)
Definition lambda_secp256k1 : Z :=
  0x5363ad4cc05c30e0a5261c028812645a122e22ea20816678df02967c1b23bd72.
Definition lambda2_secp256k1 : Z :=
  0xac9c52b33fa3cf1f5ad9e3fd77ed9ba4a880b9fc8ec739c2e0cfc810b51283ce.
Definition n_secp256k1 : Z :=
  0xfffffffffffffffffffffffffffffffebaaedce6af48a03bbfd25e8cd0364141.

(** ** A small concrete world

    A stand-in for the collaborators, on which the definitions above can
    be run.  The subgroup generated by the base point is cyclic of order
    [order], so a public point is represented by its discrete logarithm;
    addresses and key texts are readable renderings that keep the address
    type, the compression flag and the number apart. *)

Module Sample.

Definition hex (k : Z) : string :=
  HexadecimalString.NilZero.string_of_int (Z.to_hex_int k).

Definition undec (s : string) : Z :=
  match DecimalString.NilZero.int_of_string s with
  | Some d => Z.of_int d
  | None => -1
  end.

Definition flag (compressed : bool) : string :=
  if compressed then "c" else "u".

Definition address_prefix (t : AddrType) : string :=
  match t with
  | P2PKH => "1"
  | P2SH => "3"
  | BECH32 => "bc1"
  end.

Definition decode (s : string) : Int * bool :=
  match s with
  | String c r =>
      if Ascii.eqb c "5" then (undec r, false)
      else if Ascii.eqb c "K" || Ascii.eqb c "L" then (undec r, true)
      else (-1, false)
  | EmptyString => (-1, false)
  end.

Definition secp : Secp256K1 := {|
  Point := Z;
  ComputePublicKey := fun k => k mod order;
  GetAddress := fun t c p => (address_prefix t ++ flag c ++ dec p)%string;
  GetPrivAddress := fun c k => ((if c then "K" else "5") ++ dec k)%string;
  GetPublicKeyHex := fun c p => ((if c then "02" else "04") ++ hex p)%string;
  DecodePrivateKey := decode
|}.

Definition string_bytes (s : string) : list byte := list_byte_of_string s.

Definition pad (n : nat) (l : list byte) : list byte :=
  firstn n (l ++ repeat x00 n).

Definition lib : Lib := {|
  pbkdf2_hmac_sha512 := fun n pass salt _ => pad n (string_bytes (salt ++ pass));
  sha256 := fun msg => pad 32 msg;
  GetBase16 := hex
|}.

Fixpoint lookup (files : list (string * string)) (name : string)
    : option string :=
  match files with
  | [] => None
  | (n, c) :: files' => if String.eqb n name then Some c else lookup files' name
  end.

(** A machine holding [files], on which every file not named in
    [readonly] can be appended to. *)
Definition os (files : list (string * string)) (readonly : list string) : OS := {|
  read_file := lookup files;
  can_append := fun path => negb (existsb (String.eqb path) readonly);
  strerror := fun _ => "No such file or directory"%string;
  progress_text := fun nbLine nbAddr => dec (nbLine * 100 * 34 / (nbAddr * 33))
|}.

Definition getSeed_zero : Timer := fun _ => "00"%string.
Definition getSeed_one : Timer := fun _ => "01"%string.

(** Text of a record file from its lines. *)
Fixpoint unlines (ls : list string) : string :=
  match ls with
  | [] => EmptyString
  | l :: ls' => (l ++ LF ++ unlines ls')%string
  end.

(** A SHA-256 stand-in whose digest is made of 32 bytes [0xff]. *)
Definition lib_ff : Lib := {|
  pbkdf2_hmac_sha512 := pbkdf2_hmac_sha512 lib;
  sha256 := fun _ => repeat xff 32;
  GetBase16 := hex
|}.

(** A run of [reconstructAdd] on the record file "in.txt" made of the
    lines [ls], results going to the standard output. *)
Definition input (ls : list string) : OS := os [("in.txt"%string, unlines ls)] [].

Definition run (ls : list string) (privAddr : string) : M unit :=
  reconstructAdd (input ls) lib secp "in.txt" EmptyString privAddr.

(** Record files used in the worked runs.  In this world "55" is the text
    of the uncompressed key 5, and "1u7" the uncompressed P2PKH address of
    the point 7*G. *)
Definition one_record : list string :=
  ["PubAddress: 1u7"; "PartialPriv: 52"]%string.
Definition one_record_sym : list string :=
  ["PubAddress: 1u2"; "PartialPriv: 57"]%string.
Definition one_record_same : list string :=
  ["PubAddress: 1u7"; "PartialPriv: 57"]%string.
Definition unsupported_first : list string :=
  ["PubAddress: xyz"; "garbage"; "PubAddress: 1u7"; "PartialPriv: 52"]%string.
Definition malformed_lines : list string :=
  ["PubAddress: 1u7"; "garbage"; "nonsense"; "PartialPriv: 52"]%string.
Definition odd_ending_in_address : list string :=
  ["PubAddress: xyz"; "garbage"; "PubAddress: 1u7"]%string.
Definition odd_ending_in_unsupported : list string :=
  ["PubAddress: 1u7"; "PartialPriv: 52"; "PubAddress: xyz"]%string.
Definition wrong_mode_first : list string :=
  ["PubAddress: 1u7"; "PartialPriv: Kx"; "PubAddress: 1u7"; "PartialPriv: 52"]%string.
Definition undecodable_partial : list string :=
  ["PubAddress: 1u4"; "PartialPriv: 5x"]%string.

(** The loop on the lines [ls] for the base key 5, uncompressed. *)
Definition loop5 (ls : list string) : nat -> Z -> M unit :=
  reconstruct_loop (input ls) lib secp EmptyString lambda_secp256k1
    lambda2_secp256k1 5 false ls.

Definition record5 (ls : list string) : Z -> M unit :=
  reconstruct_record (input ls) lib secp EmptyString lambda_secp256k1
    lambda2_secp256k1 5 false ls.

End Sample.

(** ** Vocabulary of the specification *)

(** The tag that precedes the private key text in a sink record. *)
Definition wif_tag (t : AddrType) : string :=
  match t with
  | P2PKH => "p2pkh:"
  | P2SH => "p2wpkh-p2sh:"
  | BECH32 => "p2wpkh:"
  end.

(** The fixed record of the result sink, written to [f]: a blank line and
    the public address, the tagged private key text, the private key in
    hexadecimal. *)
Definition sink_record (f : FILE) (t : AddrType) (addr pAddr pAddrHex : string)
    : list event :=
  [ EvFprintf f (LF ++ "Pub Addr: " ++ addr ++ LF)%string;
    EvFprintf f ("Priv (WIF): " ++ wif_tag t ++ pAddr ++ LF)%string;
    EvFprintf f ("Priv (HEX): 0x" ++ pAddrHex ++ LF)%string ].

Definition cannot_open (outputFile : string) : event :=
  EvPrintf (CLR_RED ++ "Cannot open " ++ outputFile ++ " for writing"
            ++ CLR_RESET ++ LF)%string.

(** What one emission to the sink leaves in the trace. *)
Definition emission (os : OS) (outputFile : string) (t : AddrType)
    (addr pAddr pAddrHex : string) : list event :=
  match outputFile with
  | EmptyString => sink_record stdout t addr pAddr pAddrHex
  | _ =>
      if can_append os outputFile then
        EvFopen outputFile "a" true
        :: sink_record (file outputFile) t addr pAddr pAddrHex
        ++ [EvFclose outputFile]
      else
        EvFopen outputFile "a" false :: cannot_open outputFile
        :: sink_record stdout t addr pAddr pAddrHex
  end.

(** Events of the key derivation and of curve arithmetic. *)
Definition is_key_operation (e : event) : bool :=
  match e with
  | EvPbkdf2 _ _ _ _ | EvSha256 _ | EvComputePublicKey _ => true
  | _ => false
  end.

(** The scalars handed to [ComputePublicKey], in call order. *)
Fixpoint computed_keys (t : list event) : list Int :=
  match t with
  | [] => []
  | EvComputePublicKey k :: t' => k :: computed_keys t'
  | _ :: t' => computed_keys t'
  end.

(** The number of sink records in a trace: each starts with the one
    [fprintf] of the address line. *)
Definition is_sink_header (e : event) : bool :=
  match e with
  | EvFprintf _ text => String.prefix (LF ++ "Pub Addr: ")%string text
  | _ => false
  end.

Definition nb_emissions (t : list event) : nat :=
  List.length (filter is_sink_header t).

(** The six transforms of the specification, by index. *)
Definition T (i : nat) (k : Z) : Z :=
  match i with
  | 1%nat => k
  | 2%nat => (k * lambda_secp256k1) mod n_secp256k1
  | 3%nat => (k * lambda2_secp256k1) mod n_secp256k1
  | 4%nat => n_secp256k1 - k
  | 5%nat => n_secp256k1 - (k * lambda_secp256k1) mod n_secp256k1
  | 6%nat => n_secp256k1 - (k * lambda2_secp256k1) mod n_secp256k1
  | _ => 0
  end.

Definition transforms (k : Z) : list Z := map (fun i => T i k) (seq 1 6).

(** The diagnostics of [reconstructAdd]. *)
Definition msg_unsupported (i : Z) (addr : string) : list event :=
  [ EvPrintf (CLR_RED ++ "Invalid partialkey info file at line " ++ dec i
              ++ CLR_RESET ++ LF)%string;
    EvPrintf (CLR_RED ++ addr ++ " Address format not supported"
              ++ CLR_RESET ++ LF)%string ].

Definition msg_expected (i : Z) (what : string) : event :=
  EvPrintf (CLR_RED ++ "Invalid partialkey info file at line " ++ dec i
            ++ " (" ++ DQ ++ what ++ DQ ++ " expected)" ++ CLR_RESET ++ LF)%string.

Definition msg_wrong_mode (i : Z) : event :=
  EvPrintf (CLR_YELLOW ++ "Warning, Invalid partialkey at line " ++ dec i
            ++ " (Wrong compression mode, ignoring key)"
            ++ CLR_RESET ++ LF)%string.

Definition msg_unable (i : Z) (addr partialPrivAddr : string) : event :=
  EvPrintf (CLR_RED ++ "Unable to reconstruct final key from partialkey line "
            ++ dec i ++ CLR_RESET ++ LF ++ " Addr: " ++ addr ++ LF
            ++ " PartKey: " ++ partialPrivAddr ++ LF)%string.

(** An access outside the vector of lines. *)
Definition out_of_range {A} (o : outcome A) : bool :=
  match o with
  | BadIndex _ => true
  | _ => false
  end.

(** [t] holds the block [b] as consecutive events. *)
Definition has_block (b t : list event) : Prop :=
  exists pre post, t = pre ++ b ++ post.

(** One trial of the macro on the offset [e], for a record with address
    type [t], target [addr] and partial scalar [partial]: the candidate
    scalar, whether its address is the target, and the events left. *)
Section Trial.

Variable os : OS.
Variable lib : Lib.
Variable secp : Secp256K1.
Variable outputFile : string.
Variable compressed : bool.
Variable t : AddrType.
Variable addr : string.
Variable partial : Int.

Definition candidate (e : Int) : Int := (partial + e) mod n_secp256k1.

Definition candidate_address (e : Int) : string :=
  GetAddress secp t compressed (ComputePublicKey secp (candidate e)).

Definition hit (e : Int) : bool := String.eqb (candidate_address e) addr.

Definition attempt (e : Int) : list event :=
  EvComputePublicKey (candidate e)
  :: (if hit e then
        emission os outputFile t addr
          (GetPrivAddress secp compressed (candidate e))
          (GetBase16 lib (candidate e))
      else []).

End Trial.

(** The six offsets in the order in which [reconstructAdd] builds them. *)
Definition offsets (lambda lambda2 privKey : Int) : list Int :=
  [ privKey;
    ModMulK1order privKey lambda;
    ModMulK1order privKey lambda2;
    Add (Neg privKey) order;
    Add (Neg (ModMulK1order privKey lambda)) order;
    Add (Neg (ModMulK1order privKey lambda2)) order ].

(** The vector is short enough for the [int] loop counter. *)
Definition fits_int (lines : list string) : Prop :=
  Z.of_nat (List.length lines) < 2 ^ 31 - 1.

(** *** Lines and files, for [parseFile] *)

(** The last character of [s] is white space. *)
Fixpoint ends_in_space (s : string) : bool :=
  match s with
  | EmptyString => false
  | String c EmptyString => isspace c
  | String _ s' => ends_in_space s'
  end.

Fixpoint all_space (s : string) : bool :=
  match s with
  | EmptyString => true
  | String c s' => isspace c && all_space s'
  end.

Fixpoint no_LF (s : string) : bool :=
  match s with
  | EmptyString => true
  | String c s' => negb (Ascii.eqb c (ascii_of_nat 10)) && no_LF s'
  end.

Definition nonempty (s : string) : bool := (0 <? String.length s)%nat.

(** The lines that [parseFile] keeps from a file of text [content]. *)
Definition kept_lines (content : string) : list string :=
  filter nonempty (map rstrip (getlines content)).

(** A text file given by its rows: each row is a line followed by some
    padding and a line feed. *)
Fixpoint file_text (rows : list (string * string)) : string :=
  match rows with
  | [] => EmptyString
  | (l, w) :: rows' => (l ++ w ++ LF ++ file_text rows')%string
  end.

(** A row whose line is non-empty, holds no line feed and does not end in
    white space, and whose padding is white space other than line feeds
    (a carriage return, blanks, tabs). *)
Definition clean_row (row : string * string) : bool :=
  nonempty (fst row) && negb (ends_in_space (fst row)) && no_LF (fst row)
  && all_space (snd row) && no_LF (snd row).

(** Successful opens not yet closed. *)
Fixpoint open_handles (t : list event) : Z :=
  match t with
  | [] => 0
  | EvFopen _ _ true :: t' => 1 + open_handles t'
  | EvFclose _ :: t' => open_handles t' - 1
  | _ :: t' => open_handles t'
  end.

(** The factor by which the transform of index [j] multiplies the base
    key, modulo the group order. *)
Definition coeff (j : nat) : Z :=
  match j with
  | 1%nat => 1
  | 2%nat => lambda_secp256k1
  | 3%nat => lambda2_secp256k1
  | 4%nat => - 1
  | 5%nat => - lambda_secp256k1
  | 6%nat => - lambda2_secp256k1
  | _ => 0
  end.

(** *** Fields of a separated text, for [getInts] *)

(** The pieces of [text] between occurrences of [sep]; there is always at
    least one. *)
Fixpoint fields (sep : ascii) (text : string) : list string :=
  match text with
  | EmptyString => [EmptyString]
  | String c text' =>
      if Ascii.eqb c sep then EmptyString :: fields sep text'
      else
        match fields sep text' with
        | [] => [String c EmptyString]
        | f :: fs => String c f :: fs
        end
  end.

Fixpoint join (sep : ascii) (pieces : list string) : string :=
  match pieces with
  | [] => EmptyString
  | [p] => p
  | p :: pieces' => (p ++ String sep (join sep pieces'))%string
  end.

Fixpoint occurrences (sep : ascii) (text : string) : nat :=
  match text with
  | EmptyString => O
  | String c text' =>
      ((if Ascii.eqb c sep then 1 else 0) + occurrences sep text')%nat
  end.

(** Converting the pieces one after the other, as the [try] block does. *)
Fixpoint convert (name : string) (pieces : list string) (tokens : list Z)
    : M (list Z) :=
  match pieces with
  | [] => ret tokens
  | p :: pieces' =>
      item <- stoi_in_try name p ;;
      convert name pieces' (tokens ++ [item])
  end.

Definition in_int_range (z : Z) : bool :=
  (- 2 ^ 31 <=? z) && (z <=? 2 ^ 31 - 1).

Definition msg_number_expected (name : string) : event :=
  EvPrintf (CLR_RED ++ "Invalid " ++ name ++ " argument, number expected"
            ++ CLR_RESET ++ LF)%string.

(** *** Discipline of file handles *)

Definition is_open (opened : option string) (path : string) : bool :=
  match opened with
  | Some q => String.eqb q path
  | None => false
  end.

(** [well_bracketed opened t]: starting with the file [opened] open (or
    none), the events of [t] use files one at a time.  An [fopen] is
    attempted only when no file is open, and leaves its file open only
    when it succeeds; [fprintf] to a file and [fclose] name the file that
    is open; no file is open at the end. *)
Fixpoint well_bracketed (opened : option string) (t : list event) : bool :=
  match t with
  | [] => match opened with None => true | Some _ => false end
  | EvFopen path _ ok :: t' =>
      match opened with
      | None => well_bracketed (if ok then Some path else None) t'
      | Some _ => false
      end
  | EvFclose path :: t' => is_open opened path && well_bracketed None t'
  | EvFprintf (file path) _ :: t' =>
      is_open opened path && well_bracketed opened t'
  | _ :: t' => well_bracketed opened t'
  end.

Definition is_successful_open (e : event) : bool :=
  match e with
  | EvFopen _ _ true => true
  | _ => false
  end.

(* ------------------------------------------------------------------ *)
(** * Properties *)

(** ** The trace monad *)

Lemma bind_Returns {A B} (t : list event) (a : A) (k : A -> M B) :
  bind (t, Returns a) k = (t ++ trace (k a), result (k a)).
Proof. unfold bind, trace, result. destruct (k a); reflexivity. Qed.

Lemma bind_ret_l {A B} (a : A) (k : A -> M B) : bind (ret a) k = k a.
Proof. unfold ret. rewrite bind_Returns. destruct (k a); reflexivity. Qed.

Lemma surjective_M {A} (m : M A) : m = (trace m, result m).
Proof. destruct m; reflexivity. Qed.

(** ** outputAdd *)

Lemma outputAdd_emission (os : OS) (outputFile : string) (t : AddrType)
    (addr pAddr pAddrHex : string) :
  outputAdd os outputFile t addr pAddr pAddrHex
  = (emission os outputFile t addr pAddr pAddrHex, Returns tt).
Proof.
  unfold outputAdd, emission.
  destruct outputFile as [|c outputFile]; simpl.
  - destruct t; reflexivity.
  - destruct (can_append os (String c outputFile)); destruct t; reflexivity.
Qed.

(** C8.  Every call of the result sink writes the fixed record, in order: a
    blank line and the public address, the private key text behind the tag
    of the address type, the private key in hexadecimal.  With a
    destination path the file is opened in append mode and receives the
    record; when the open fails, a diagnostic is printed and the record
    goes to the standard output; without a path it goes to the standard
    output.  The call always returns. *)
Theorem outputAdd_never_drops (os : OS) (outputFile : string) (t : AddrType)
    (addr pAddr pAddrHex : string) :
  outputAdd os outputFile t addr pAddr pAddrHex
  = (if (String.length outputFile =? 0)%nat then
       sink_record stdout t addr pAddr pAddrHex
     else if can_append os outputFile then
       [EvFopen outputFile "a" true]
       ++ sink_record (file outputFile) t addr pAddr pAddrHex
       ++ [EvFclose outputFile]
     else
       [EvFopen outputFile "a" false;
        EvPrintf (CLR_RED ++ "Cannot open " ++ outputFile ++ " for writing"
                  ++ CLR_RESET ++ LF)%string]
       ++ sink_record stdout t addr pAddr pAddrHex,
     Returns tt).
Proof.
  rewrite outputAdd_emission. unfold emission.
  destruct outputFile as [|c outputFile]; [reflexivity|].
  cbn [String.length Nat.eqb].
  destruct (can_append os (String c outputFile)); reflexivity.
Qed.

(** ** generateKeyPair *)

Lemma Int_of_bits64_range (d : list byte) :
  0 <= Int_of_bits64 d < 256 ^ Z.of_nat (List.length d).
Proof.
  induction d as [|b d IH].
  - simpl. lia.
  - cbn [Int_of_bits64 List.length]. rewrite Nat2Z.inj_succ, Z.pow_succ_r by lia.
    assert (0 <= Z.of_N (Byte.to_N b) < 256).
    { pose proof (Byte.to_N_bounded b). lia. }
    lia.
Qed.

(** The bytes can be read back from the scalar: nothing is folded away. *)
Lemma Int_of_bits64_inj (d1 d2 : list byte) :
  List.length d1 = List.length d2 ->
  Int_of_bits64 d1 = Int_of_bits64 d2 -> d1 = d2.
Proof.
  revert d2. induction d1 as [|a d1 IH]; intros [|b d2] Hl He;
    try discriminate; [reflexivity|].
  cbn [Int_of_bits64] in He.
  assert (Ha : 0 <= Z.of_N (Byte.to_N a) < 256).
  { pose proof (Byte.to_N_bounded a). lia. }
  assert (Hb : 0 <= Z.of_N (Byte.to_N b) < 256).
  { pose proof (Byte.to_N_bounded b). lia. }
  assert (Hab : Z.of_N (Byte.to_N a) = Z.of_N (Byte.to_N b)) by lia.
  assert (Hd : Int_of_bits64 d1 = Int_of_bits64 d2) by lia.
  f_equal.
  - apply N2Z.inj in Hab.
    assert (Hs : Some a = Some b).
    { rewrite <- (Byte.of_to_N a), <- (Byte.of_to_N b), Hab. reflexivity. }
    now inversion Hs.
  - apply IH; [ now inversion Hl | exact Hd ].
Qed.

(** C5.  A seed of fewer than 8 characters makes the derivation print its
    error and leave with status -1, whatever the compression mode, the
    paranoiac flag and the random source; no PBKDF2, SHA-256 or generator
    multiplication takes place. *)
Theorem generateKeyPair_short_seed (lib : Lib) (secp : Secp256K1)
    (getSeed : Timer) (seed : string) (searchMode : SearchMode)
    (paranoiacSeed : bool) :
  (String.length seed < 8)%nat ->
  generateKeyPair lib secp getSeed seed searchMode paranoiacSeed
  = ([ EvPrintf (CLR_RED
          ++ "Error: Use a seed of at least 8 characters to generate a key pair"
          ++ CLR_RESET ++ LF)%string;
       EvPrintf ("Ex: VanitySearch -s " ++ DQ ++ "A Strong Password" ++ DQ
                 ++ " -kp" ++ LF)%string ],
     Exits (-1))
  /\ existsb is_key_operation
       (trace (generateKeyPair lib secp getSeed seed searchMode paranoiacSeed))
     = false.
Proof.
  intros Hlen. apply Nat.ltb_lt in Hlen.
  unfold generateKeyPair. rewrite Hlen. split; reflexivity.
Qed.

(** C4.  For a seed of at least 8 characters and a single compression
    mode, the derivation appends the 32-byte random text to the seed only
    when paranoiac, runs PBKDF2-HMAC-SHA-512 on the seed with the salt
    "VanitySearch", 2048 iterations and a 64-byte output, hashes that
    output with SHA-256, takes the 32 digest bytes as they are for the
    private scalar (the scalar determines the digest, it lies below 2^256
    and is not reduced modulo the group order), and multiplies the
    generator by that scalar. *)
Theorem generateKeyPair_derivation (lib : Lib) (secp : Secp256K1)
    (getSeed : Timer) (seed : string) (searchMode : SearchMode)
    (paranoiacSeed : bool) :
  hash_lengths lib ->
  (8 <= String.length seed)%nat ->
  searchMode <> SEARCH_BOTH ->
  let seed' := if paranoiacSeed then (seed ++ getSeed 32)%string else seed in
  let hseed := pbkdf2_hmac_sha512 lib 64 seed' "VanitySearch" 2048 in
  let digest := sha256 lib hseed in
  let privKey := Int_of_bits64 digest in
  let compressed := SearchMode_eqb searchMode SEARCH_COMPRESSED in
  generateKeyPair lib secp getSeed seed searchMode paranoiacSeed
  = ((if paranoiacSeed then [EvGetSeed 32] else [])
     ++ [ EvPbkdf2 seed' "VanitySearch" 2048 64;
          EvSha256 hseed;
          EvComputePublicKey privKey;
          EvPrintf ("Priv : " ++ GetPrivAddress secp compressed privKey ++ LF)%string;
          EvPrintf ("Pub  : "
                    ++ GetPublicKeyHex secp compressed
                         (ComputePublicKey secp privKey) ++ LF)%string ],
     Returns tt)
  /\ List.length hseed = 64%nat
  /\ List.length digest = 32%nat
  /\ 0 <= privKey < 2 ^ 256
  /\ (forall d, List.length d = 32%nat -> Int_of_bits64 d = privKey -> d = digest).
Proof.
  intros [Hpb Hsha] Hlen Hmode seed' hseed digest privKey compressed.
  assert (Hl : (String.length seed <? 8)%nat = false) by (apply Nat.ltb_ge; lia).
  assert (Hm : SearchMode_eqb searchMode SEARCH_BOTH = false)
    by (destruct searchMode; try reflexivity; congruence).
  repeat split.
  - unfold generateKeyPair. rewrite Hl, Hm.
    subst seed' hseed digest privKey compressed.
    destruct paranoiacSeed; reflexivity.
  - apply Hpb.
  - apply Hsha.
  - apply (Int_of_bits64_range digest).
  - pose proof (Int_of_bits64_range digest) as H.
    subst digest. rewrite Hsha in H. exact (proj2 H).
  - intros d Hd He. apply Int_of_bits64_inj.
    + subst digest. rewrite Hsha. exact Hd.
    + exact He.
Qed.

(** C9.  With [paranoiac = false] the derivation does not consult the
    random source: whatever that source returns, the same seed and mode
    give the same run, hence the same private scalar, the same call of the
    generator multiplication and the same two printed keys. *)
Theorem generateKeyPair_deterministic (lib : Lib) (secp : Secp256K1)
    (getSeed1 getSeed2 : Timer) (seed : string) (searchMode : SearchMode) :
  (8 <= String.length seed)%nat ->
  generateKeyPair lib secp getSeed1 seed searchMode false
  = generateKeyPair lib secp getSeed2 seed searchMode false
  /\ computed_keys
       (trace (generateKeyPair lib secp getSeed1 seed searchMode false))
     = computed_keys
         (trace (generateKeyPair lib secp getSeed2 seed searchMode false))
  /\ (searchMode <> SEARCH_BOTH ->
      computed_keys
        (trace (generateKeyPair lib secp getSeed1 seed searchMode false))
      = [Int_of_bits64
           (sha256 lib (pbkdf2_hmac_sha512 lib 64 seed "VanitySearch" 2048))]).
Proof.
  intros Hlen.
  assert (Hl : (String.length seed <? 8)%nat = false) by (apply Nat.ltb_ge; lia).
  repeat split.
  intros Hmode.
  assert (Hm : SearchMode_eqb searchMode SEARCH_BOTH = false)
    by (destruct searchMode; try reflexivity; congruence).
  unfold generateKeyPair. rewrite Hl, Hm. reflexivity.
Qed.

(** ** Strings and indices *)

Lemma substr0_app (p r : string) : substr0 (String.length p) (p ++ r) = p.
Proof.
  unfold substr0. induction p as [|c p IH]; simpl.
  - destruct r; reflexivity.
  - now rewrite IH.
Qed.

Lemma substr_app (p r : string) : substr (String.length p) (p ++ r) = Some r.
Proof. induction p as [|c p IH]; simpl; [reflexivity | exact IH]. Qed.

Lemma substr0_eqb_prefix (p l : string) :
  String.eqb (substr0 (String.length p) l) p = String.prefix p l.
Proof.
  unfold substr0. revert l. induction p as [|c p IH]; intros l.
  - destruct l; reflexivity.
  - destruct l as [|d l]; [reflexivity|].
    cbn [String.length String.substring String.prefix String.eqb].
    rewrite IH. destruct (ascii_dec c d) as [->|Hne].
    + now rewrite Ascii.eqb_refl.
    + destruct (Ascii.eqb_spec d c); [congruence | reflexivity].
Qed.

Lemma prefix_app (p r : string) : String.prefix p (p ++ r) = true.
Proof.
  induction p as [|c p IH]; simpl; [destruct r; reflexivity|].
  destruct (ascii_dec c c); [exact IH | congruence].
Qed.

Lemma int32_small (x : Z) : - 2 ^ 31 <= x < 2 ^ 31 -> int32 x = x.
Proof. intros H. unfold int32. rewrite Z.mod_small; lia. Qed.

Lemma addrType_of_None (c : ascii) :
  c <> "1"%char -> c <> "3"%char -> c <> "b"%char -> c <> "B"%char ->
  addrType_of c = None.
Proof.
  intros H1 H3 Hb HB. unfold addrType_of.
  destruct (Ascii.eqb_spec c "1"); [congruence|].
  destruct (Ascii.eqb_spec c "3"); [congruence|].
  destruct (Ascii.eqb_spec c "b"); [congruence|].
  destruct (Ascii.eqb_spec c "B"); [congruence|].
  reflexivity.
Qed.

Lemma vector_at_nth (lines : list string) (i : Z) (l : string) :
  0 <= i -> nth_error lines (Z.to_nat i) = Some l ->
  vector_at lines i = ret l.
Proof.
  intros Hi Hn. unfold vector_at.
  destruct (Z.ltb_spec i 0); [lia|]. now rewrite Hn.
Qed.

Lemma vector_at_past (lines : list string) (i : Z) :
  Z.of_nat (List.length lines) <= i ->
  vector_at lines i = ([], BadIndex i).
Proof.
  intros Hi. unfold vector_at.
  destruct (Z.ltb_spec i 0); [reflexivity|].
  assert (Hn : nth_error lines (Z.to_nat i) = None)
    by (apply nth_error_None; lia).
  now rewrite Hn.
Qed.

Lemma constants_of_main :
  SetBase16 "5363ad4cc05c30e0a5261c028812645a122e22ea20816678df02967c1b23bd72"
  = lambda_secp256k1
  /\ SetBase16 "ac9c52b33fa3cf1f5ad9e3fd77ed9ba4a880b9fc8ec739c2e0cfc810b51283ce"
     = lambda2_secp256k1
  /\ order = n_secp256k1.
Proof. repeat split; vm_compute; reflexivity. Qed.

(** The two constants are the primitive cube roots of unity modulo the
    group order. *)
Lemma lambda_cube_roots :
  (lambda_secp256k1 * lambda_secp256k1) mod n_secp256k1 = lambda2_secp256k1
  /\ (lambda_secp256k1 * lambda2_secp256k1) mod n_secp256k1 = 1
  /\ lambda_secp256k1 <> 1 /\ lambda2_secp256k1 <> 1
  /\ 0 < lambda_secp256k1 < n_secp256k1
  /\ 0 < lambda2_secp256k1 < n_secp256k1.
Proof. vm_compute. repeat split; congruence. Qed.

(** ** The six trials of a record *)

Section Trials.

Variable os : OS.
Variable lib : Lib.
Variable secp : Secp256K1.
Variable outputFile : string.
Variable compressed : bool.

Lemma CHECK_ADDR_attempt (t : AddrType) (addr : string) (partial e : Int)
    (found : bool) :
  CHECK_ADDR os lib secp outputFile compressed t addr partial e found
  = (attempt os lib secp outputFile compressed t addr partial e,
     Returns (hit secp compressed t addr partial e || found)).
Proof.
  unfold CHECK_ADDR, call_ComputePublicKey, attempt, hit, candidate_address.
  rewrite bind_Returns.
  replace (ModAddK1order e partial) with (candidate partial e)
    by (unfold ModAddK1order, candidate;
        rewrite (proj2 (proj2 constants_of_main)); f_equal; lia).
  destruct (String.eqb _ addr).
  - rewrite outputAdd_emission, bind_Returns. unfold ret, trace, result; simpl.
    now rewrite app_nil_r.
  - reflexivity.
Qed.

Lemma reconstruct_key_attempts (lambda lambda2 privKey : Int) (i : Z)
    (t : AddrType) (addr partialPrivAddr : string) (partial : Int) :
  reconstruct_key os lib secp outputFile lambda lambda2 privKey compressed
    i t addr partialPrivAddr partial
  = (flat_map (attempt os lib secp outputFile compressed t addr partial)
       (offsets lambda lambda2 privKey)
     ++ (if existsb (hit secp compressed t addr partial)
              (offsets lambda lambda2 privKey)
         then [] else [msg_unable i addr partialPrivAddr]),
     Returns tt).
Proof.
  unfold reconstruct_key, offsets.
  repeat (rewrite CHECK_ADDR_attempt, bind_Returns).
  cbn [flat_map existsb].
  set (h1 := hit _ _ _ _ _ privKey).
  set (h2 := hit _ _ _ _ _ (ModMulK1order privKey lambda)).
  set (h3 := hit _ _ _ _ _ (ModMulK1order privKey lambda2)).
  set (h4 := hit _ _ _ _ _ (Add (Neg privKey) order)).
  set (h5 := hit _ _ _ _ _ (Add (Neg (ModMulK1order privKey lambda)) order)).
  set (h6 := hit _ _ _ _ _ (Add (Neg (ModMulK1order privKey lambda2)) order)).
  replace (h6 || (h5 || (h4 || (h3 || (h2 || (h1 || false))))))
    with (h1 || (h2 || (h3 || (h4 || (h5 || (h6 || false))))))
    by (destruct h1, h2, h3, h4, h5, h6; reflexivity).
  destruct (h1 || (h2 || (h3 || (h4 || (h5 || (h6 || false)))))); 
    unfold trace, result, printf, emit, ret, msg_unable; cbn [fst snd negb];
    rewrite ?app_nil_r, <- ?app_assoc; reflexivity.
Qed.

Lemma offsets_transforms (privKey : Int) :
  offsets lambda_secp256k1 lambda2_secp256k1 privKey = transforms privKey.
Proof.
  unfold offsets, transforms, ModMulK1order, Add, Neg.
  rewrite (proj2 (proj2 constants_of_main)).
  cbn [map seq T]. repeat (f_equal; try lia).
Qed.

End Trials.

(** ** One pass of the loop body, path by path *)

Section Paths.

Variable os : OS.
Variable lib : Lib.
Variable secp : Secp256K1.
Variable outputFile : string.
Variables lambda lambda2 privKey : Int.
Variable compressed : bool.
Variable lines : list string.

Local Abbreviation record :=
  (reconstruct_record os lib secp outputFile lambda lambda2 privKey compressed
     lines).
Local Abbreviation loop :=
  (reconstruct_loop os lib secp outputFile lambda lambda2 privKey compressed
     lines).

Ltac first_line Hi Hn :=
  unfold reconstruct_record;
  rewrite (vector_at_nth _ _ _ Hi Hn), bind_ret_l;
  match goal with
  | |- context [substr0 12 ?l] =>
      change (substr0 12 l) with (substr0 (String.length "PubAddress: ") l);
      rewrite (substr0_eqb_prefix "PubAddress: " l)
  end.

Ltac address_line Hi Hn :=
  first_line Hi Hn;
  rewrite prefix_app;
  unfold substr_or_throw;
  match goal with
  | |- context [substr 12 (?p ++ ?r)%string] =>
      change (substr 12 (p ++ r)%string)
        with (substr (String.length p) (p ++ r)%string);
      rewrite (substr_app p r)
  end;
  rewrite bind_ret_l.

Ltac second_line Hi1 Hn1 :=
  rewrite (vector_at_nth _ _ _ Hi1 Hn1), bind_ret_l;
  match goal with
  | |- context [substr0 13 ?l] =>
      change (substr0 13 l) with (substr0 (String.length "PartialPriv: ") l);
      rewrite (substr0_eqb_prefix "PartialPriv: " l)
  end.

Ltac partial_line Hi1 Hn1 :=
  second_line Hi1 Hn1;
  rewrite prefix_app;
  unfold substr_or_throw;
  match goal with
  | |- context [substr 13 (?p ++ ?r)%string] =>
      change (substr 13 (p ++ r)%string)
        with (substr (String.length p) (p ++ r)%string);
      rewrite (substr_app p r)
  end;
  rewrite bind_ret_l.

Lemma record_bad_address_line (i : Z) (l0 : string) :
  0 <= i -> nth_error lines (Z.to_nat i) = Some l0 ->
  String.prefix "PubAddress: " l0 = false ->
  record i = ([msg_expected i "PubAddress: "], Exits (-1)).
Proof.
  intros Hi Hn Hp. first_line Hi Hn. rewrite Hp. reflexivity.
Qed.

Lemma record_unsupported (i : Z) (addr : string) :
  0 <= i ->
  nth_error lines (Z.to_nat i) = Some ("PubAddress: " ++ addr)%string ->
  addrType_of (data0 addr) = None ->
  record i = (msg_unsupported i addr, Returns tt).
Proof.
  intros Hi Hn Ht. address_line Hi Hn. rewrite Ht. reflexivity.
Qed.

Lemma record_no_second_line (i : Z) (addr : string) (t : AddrType) :
  0 <= i ->
  nth_error lines (Z.to_nat i) = Some ("PubAddress: " ++ addr)%string ->
  addrType_of (data0 addr) = Some t ->
  Z.of_nat (List.length lines) <= i + 1 ->
  record i = ([], BadIndex (i + 1)).
Proof.
  intros Hi Hn Ht Hlen. address_line Hi Hn. rewrite Ht.
  rewrite (vector_at_past _ _ Hlen). reflexivity.
Qed.

Lemma record_bad_partial_line (i : Z) (addr l1 : string) (t : AddrType) :
  0 <= i ->
  nth_error lines (Z.to_nat i) = Some ("PubAddress: " ++ addr)%string ->
  addrType_of (data0 addr) = Some t ->
  nth_error lines (Z.to_nat (i + 1)) = Some l1 ->
  String.prefix "PartialPriv: " l1 = false ->
  record i = ([msg_expected i "PartialPriv: "], Exits (-1)).
Proof.
  intros Hi Hn Ht Hn1 Hp. address_line Hi Hn. rewrite Ht.
  assert (Hi1 : 0 <= i + 1) by lia.
  second_line Hi1 Hn1. rewrite Hp. reflexivity.
Qed.

Lemma record_decoded (i : Z) (addr ptext : string) (t : AddrType) :
  0 <= i ->
  nth_error lines (Z.to_nat i) = Some ("PubAddress: " ++ addr)%string ->
  addrType_of (data0 addr) = Some t ->
  nth_error lines (Z.to_nat (i + 1)) = Some ("PartialPriv: " ++ ptext)%string ->
  0 <= privKey ->
  record i
  = if negb (Bool.eqb (snd (DecodePrivateKey secp ptext)) compressed) then
      ([msg_wrong_mode i], Returns tt)
    else
      reconstruct_key os lib secp outputFile lambda lambda2 privKey compressed
        i t addr ptext (fst (DecodePrivateKey secp ptext)).
Proof.
  intros Hi Hn Ht Hn1 Hk. address_line Hi Hn. rewrite Ht.
  assert (Hi1 : 0 <= i + 1) by lia.
  partial_line Hi1 Hn1.
  assert (Hneg : IsNegative privKey = false)
    by (unfold IsNegative; apply Z.ltb_ge; exact Hk).
  rewrite Hneg, bind_ret_l.
  destruct (negb _); reflexivity.
Qed.

(** The guard that follows the decoding of the partial key looks at the
    base key. *)
Lemma record_base_key_negative (i : Z) (addr ptext : string) (t : AddrType) :
  0 <= i ->
  nth_error lines (Z.to_nat i) = Some ("PubAddress: " ++ addr)%string ->
  addrType_of (data0 addr) = Some t ->
  nth_error lines (Z.to_nat (i + 1)) = Some ("PartialPriv: " ++ ptext)%string ->
  privKey < 0 ->
  record i
  = ([EvPrintf (CLR_RED ++ "Invalid partialkey info file at line " ++ dec i
                ++ CLR_RESET ++ LF)%string], Exits (-1)).
Proof.
  intros Hi Hn Ht Hn1 Hk. address_line Hi Hn. rewrite Ht.
  assert (Hi1 : 0 <= i + 1) by lia.
  partial_line Hi1 Hn1.
  assert (Hneg : IsNegative privKey = true)
    by (unfold IsNegative; apply Z.ltb_lt; exact Hk).
  rewrite Hneg. reflexivity.
Qed.

(** *** The loop *)

Lemma nth_error_in_range (i : Z) (l : string) :
  0 <= i -> nth_error lines (Z.to_nat i) = Some l ->
  i < Z.of_nat (List.length lines).
Proof.
  intros Hi Hn.
  assert (Z.to_nat i < List.length lines)%nat
    by (apply nth_error_Some; congruence).
  lia.
Qed.

Lemma loop_step (fuel : nat) (i : Z) :
  fits_int lines -> 0 <= i < Z.of_nat (List.length lines) ->
  loop (S fuel) i = (record i ;; loop fuel (i + 2)).
Proof.
  unfold fits_int. intros Hfit Hi.
  cbn [reconstruct_loop].
  rewrite (int32_small (Z.of_nat (List.length lines))) by lia.
  rewrite (int32_small (i + 2)) by lia.
  destruct (Z.ltb_spec i (Z.of_nat (List.length lines))); [reflexivity | lia].
Qed.

Lemma loop_done (fuel : nat) (i : Z) :
  fits_int lines -> Z.of_nat (List.length lines) <= i ->
  loop fuel i = ret tt.
Proof.
  unfold fits_int. intros Hfit Hi.
  destruct fuel; cbn [reconstruct_loop];
    rewrite (int32_small (Z.of_nat (List.length lines))) by lia;
    destruct (Z.ltb_spec i (Z.of_nat (List.length lines)));
    try reflexivity; lia.
Qed.

Lemma loop_after_return (fuel : nat) (i : Z) (t : list event) :
  fits_int lines -> 0 <= i < Z.of_nat (List.length lines) ->
  record i = (t, Returns tt) ->
  loop (S fuel) i = (t ++ trace (loop fuel (i + 2)), result (loop fuel (i + 2))).
Proof.
  intros Hfit Hi Hr. rewrite (loop_step _ _ Hfit Hi), Hr, bind_Returns.
  reflexivity.
Qed.

Lemma loop_after_stop (fuel : nat) (i : Z) (t : list event) (o : outcome unit) :
  fits_int lines -> 0 <= i < Z.of_nat (List.length lines) ->
  record i = (t, o) -> (forall a, o <> Returns a) ->
  loop (S fuel) i = (t, o).
Proof.
  intros Hfit Hi Hr Ho. rewrite (loop_step _ _ Hfit Hi), Hr.
  destruct o; try reflexivity. now elim (Ho a).
Qed.

End Paths.

(** ** Reading traces *)

Lemma computed_keys_app (t1 t2 : list event) :
  computed_keys (t1 ++ t2) = computed_keys t1 ++ computed_keys t2.
Proof.
  induction t1 as [|e t1 IH]; [reflexivity|].
  destruct e; cbn [computed_keys app]; rewrite IH; reflexivity.
Qed.

Lemma nb_emissions_app (t1 t2 : list event) :
  nb_emissions (t1 ++ t2) = (nb_emissions t1 + nb_emissions t2)%nat.
Proof. unfold nb_emissions. now rewrite filter_app, length_app. Qed.

Lemma sink_record_header (f : FILE) (t : AddrType) (addr pAddr pAddrHex : string) :
  filter is_sink_header (sink_record f t addr pAddr pAddrHex)
  = [EvFprintf f (LF ++ "Pub Addr: " ++ addr ++ LF)%string].
Proof.
  unfold sink_record. cbn [filter is_sink_header].
  change (LF ++ "Pub Addr: " ++ addr ++ LF)%string
    with ((LF ++ "Pub Addr: ") ++ (addr ++ LF))%string.
  rewrite prefix_app.
  destruct t; reflexivity.
Qed.

Section TraceOfTrials.

Variable os : OS.
Variable lib : Lib.
Variable secp : Secp256K1.
Variable outputFile : string.
Variable compressed : bool.
Variable t : AddrType.
Variable addr : string.
Variable partial : Int.

Local Abbreviation attempt' := (attempt os lib secp outputFile compressed t addr partial).
Local Abbreviation hit' := (hit secp compressed t addr partial).

Lemma emission_keys (pAddr pAddrHex : string) :
  computed_keys (emission os outputFile t addr pAddr pAddrHex) = [].
Proof.
  unfold emission, sink_record.
  destruct outputFile; [reflexivity|].
  destruct (can_append os _); reflexivity.
Qed.

Lemma emission_count (pAddr pAddrHex : string) :
  nb_emissions (emission os outputFile t addr pAddr pAddrHex) = 1%nat.
Proof.
  unfold emission, nb_emissions.
  destruct outputFile as [|c o].
  - now rewrite sink_record_header.
  - destruct (can_append os _).
    + cbn [filter is_sink_header]. rewrite filter_app, sink_record_header.
      reflexivity.
    + unfold cannot_open. cbn [filter is_sink_header].
      now rewrite sink_record_header.
Qed.

Lemma emission_no_unable (i : Z) (ptext pAddr pAddrHex : string) :
  ~ In (msg_unable i addr ptext) (emission os outputFile t addr pAddr pAddrHex).
Proof.
  unfold emission, sink_record, cannot_open, msg_unable.
  destruct outputFile as [|c o].
  - cbn [In]. intros [H|[H|[H|[]]]]; discriminate H.
  - destruct (can_append os _); cbn [In app].
    + intros [H|[H|[H|[H|[H|[]]]]]]; discriminate H.
    + intros [H|[H|[H|[H|[H|[]]]]]]; discriminate H.
Qed.

Lemma attempts_keys (es : list Int) :
  computed_keys (flat_map attempt' es) = map (candidate partial) es.
Proof.
  induction es as [|e es IH]; [reflexivity|].
  cbn [flat_map map]. rewrite computed_keys_app, IH. unfold attempt.
  cbn [computed_keys]. destruct (hit' e); [rewrite emission_keys|]; reflexivity.
Qed.

Lemma attempts_count (es : list Int) :
  nb_emissions (flat_map attempt' es) = List.length (filter hit' es).
Proof.
  induction es as [|e es IH]; [reflexivity|].
  cbn [flat_map filter]. rewrite nb_emissions_app, IH. unfold attempt.
  change (nb_emissions (?x :: ?l)) with (nb_emissions ([x] ++ l)).
  destruct (hit' e).
  - change (EvComputePublicKey (candidate partial e)
            :: emission os outputFile t addr
                 (GetPrivAddress secp compressed (candidate partial e))
                 (GetBase16 lib (candidate partial e)))
      with ([EvComputePublicKey (candidate partial e)]
            ++ emission os outputFile t addr
                 (GetPrivAddress secp compressed (candidate partial e))
                 (GetBase16 lib (candidate partial e))).
    rewrite nb_emissions_app, emission_count. reflexivity.
  - reflexivity.
Qed.

Lemma attempts_no_unable (i : Z) (ptext : string) (es : list Int) :
  ~ In (msg_unable i addr ptext) (flat_map attempt' es).
Proof.
  intros H. apply in_flat_map in H. destruct H as [e [_ H]].
  unfold attempt in H. destruct H as [H|H]; [discriminate H|].
  destruct (hit' e); [|contradiction].
  exact (emission_no_unable _ _ _ _ H).
Qed.

Lemma attempts_hit (e : Int) (es : list Int) :
  In e es -> hit' e = true ->
  existsb hit' es = true
  /\ has_block
       (emission os outputFile t addr
          (GetPrivAddress secp compressed (candidate partial e))
          (GetBase16 lib (candidate partial e)))
       (flat_map attempt' es).
Proof.
  intros Hin Hhit. split.
  - apply existsb_exists. now exists e.
  - apply in_split in Hin. destruct Hin as [l1 [l2 ->]].
    rewrite flat_map_app. cbn [flat_map]. unfold attempt at 2. rewrite Hhit.
    exists (flat_map attempt' l1 ++ [EvComputePublicKey (candidate partial e)]).
    exists (flat_map attempt' l2).
    rewrite <- !app_assoc. reflexivity.
Qed.

End TraceOfTrials.

Lemma T_in_transforms (j : nat) (k : Z) :
  (1 <= j <= 6)%nat -> In (T j k) (transforms k).
Proof.
  intros Hj. unfold transforms. apply in_map_iff. exists j. split; [reflexivity|].
  apply in_seq. lia.
Qed.

Lemma prefix_split (p l : string) :
  String.prefix p l = true -> exists r, l = (p ++ r)%string.
Proof.
  revert l. induction p as [|c p IH]; intros l H.
  - exists l. reflexivity.
  - destruct l as [|d l]; [discriminate H|].
    cbn [String.prefix] in H. destruct (ascii_dec c d) as [->|]; [|discriminate H].
    destruct (IH l H) as [r ->]. exists r. reflexivity.
Qed.

(** ** How one pass can end *)

Section Outcomes.

Variable os : OS.
Variable lib : Lib.
Variable secp : Secp256K1.
Variable outputFile : string.
Variables lambda lambda2 privKey : Int.
Variable compressed : bool.
Variable lines : list string.

Local Abbreviation record :=
  (reconstruct_record os lib secp outputFile lambda lambda2 privKey compressed
     lines).
Local Abbreviation loop :=
  (reconstruct_loop os lib secp outputFile lambda lambda2 privKey compressed
     lines).

(** A pass returns, leaves with status -1, or reads the line after the
    last one; the latter only on a supported address line that is the last
    line. *)
Lemma record_cases (i : Z) (l0 : string) :
  0 <= i -> nth_error lines (Z.to_nat i) = Some l0 ->
  result (record i) = Returns tt
  \/ result (record i) = Exits (-1)
  \/ (record i = ([], BadIndex (i + 1))
      /\ Z.of_nat (List.length lines) <= i + 1
      /\ exists addr t,
           l0 = ("PubAddress: " ++ addr)%string
           /\ addrType_of (data0 addr) = Some t).
Proof.
  intros Hi Hn.
  destruct (String.prefix "PubAddress: " l0) eqn:Hp.
  2:{ right; left. now rewrite (record_bad_address_line _ _ _ _ _ _ _ _ _ _ _ Hi Hn Hp). }
  destruct (prefix_split _ _ Hp) as [addr ->].
  destruct (addrType_of (data0 addr)) as [t|] eqn:Ht.
  2:{ left. now rewrite (record_unsupported _ _ _ _ _ _ _ _ _ _ _ Hi Hn Ht). }
  destruct (nth_error lines (Z.to_nat (i + 1))) as [l1|] eqn:Hn1.
  2:{ right; right.
      assert (Hlen : Z.of_nat (List.length lines) <= i + 1).
      { apply nth_error_None in Hn1. lia. }
      split; [|split; [exact Hlen|]].
      - exact (record_no_second_line _ _ _ _ _ _ _ _ _ _ _ _ Hi Hn Ht Hlen).
      - exists addr, t. now split. }
  destruct (String.prefix "PartialPriv: " l1) eqn:Hp1.
  2:{ right; left.
      now rewrite (record_bad_partial_line _ _ _ _ _ _ _ _ _ _ _ _ _ Hi Hn Ht Hn1 Hp1). }
  destruct (prefix_split _ _ Hp1) as [ptext ->].
  destruct (Z.lt_ge_cases privKey 0) as [Hk|Hk].
  - right; left.
    now rewrite (record_base_key_negative _ _ _ _ _ _ _ _ _ _ _ _ _ Hi Hn Ht Hn1 Hk).
  - left. rewrite (record_decoded _ _ _ _ _ _ _ _ _ _ _ _ _ Hi Hn Ht Hn1 Hk).
    destruct (negb _); [reflexivity|].
    now rewrite reconstruct_key_attempts.
Qed.

(** With an even number of lines no pass of the loop leaves the vector. *)
Lemma loop_even_in_bounds (fuel : nat) (i : Z) :
  fits_int lines -> Nat.even (List.length lines) = true ->
  0 <= i -> Z.even i = true ->
  out_of_range (result (loop fuel i)) = false.
Proof.
  intros Hfit Hev. revert i. induction fuel as [|fuel IH]; intros i Hi Hie.
  - cbn [reconstruct_loop]. destruct (_ <? _); reflexivity.
  - destruct (Z.lt_ge_cases i (Z.of_nat (List.length lines))) as [Hlt|Hge].
    2:{ now rewrite (loop_done _ _ _ _ _ _ _ _ _ _ _ Hfit Hge). }
    assert (Hi1 : i + 1 < Z.of_nat (List.length lines)).
    { apply Nat.even_spec in Hev. destruct Hev as [m Hm].
      apply Z.even_spec in Hie. destruct Hie as [j Hj]. lia. }
    destruct (nth_error lines (Z.to_nat i)) as [l0|] eqn:Hn.
    2:{ apply nth_error_None in Hn. lia. }
    assert (Hr : 0 <= i < Z.of_nat (List.length lines)) by lia.
    destruct (record_cases i l0 Hi Hn) as [H|[H|[H [Hlen _]]]].
    + rewrite (loop_after_return _ _ _ _ _ _ _ _ _ fuel i (trace (record i)) Hfit Hr).
      * cbn [result snd]. apply IH; [lia|].
        rewrite Z.even_add, Hie. reflexivity.
      * rewrite <- H. apply surjective_M.
    + rewrite (loop_after_stop _ _ _ _ _ _ _ _ _ fuel i (trace (record i))
                 (Exits (-1)) Hfit Hr).
      * reflexivity.
      * rewrite <- H. apply surjective_M.
      * discriminate.
    + lia.
Qed.

(** The fuel given by [reconstructAdd] always suffices. *)
Lemma loop_fuel_enough (fuel : nat) (i : Z) :
  fits_int lines -> 0 <= i ->
  Z.of_nat (List.length lines) - i <= Z.of_nat fuel ->
  result (loop fuel i) <> OutOfFuel.
Proof.
  intros Hfit. revert i. induction fuel as [|fuel IH]; intros i Hi Hf.
  - rewrite (loop_done _ _ _ _ _ _ _ _ _ _ _ Hfit) by lia. discriminate.
  - destruct (Z.lt_ge_cases i (Z.of_nat (List.length lines))) as [Hlt|Hge].
    2:{ rewrite (loop_done _ _ _ _ _ _ _ _ _ _ _ Hfit Hge). discriminate. }
    destruct (nth_error lines (Z.to_nat i)) as [l0|] eqn:Hn.
    2:{ apply nth_error_None in Hn. lia. }
    assert (Hr : 0 <= i < Z.of_nat (List.length lines)) by lia.
    destruct (record_cases i l0 Hi Hn) as [H|[H|[H _]]].
    + rewrite (loop_after_return _ _ _ _ _ _ _ _ _ fuel i (trace (record i)) Hfit Hr).
      * cbn [result snd]. apply IH; lia.
      * rewrite <- H. apply surjective_M.
    + rewrite (loop_after_stop _ _ _ _ _ _ _ _ _ fuel i (trace (record i))
                 (Exits (-1)) Hfit Hr).
      * discriminate.
      * rewrite <- H. apply surjective_M.
      * discriminate.
    + rewrite (loop_after_stop _ _ _ _ _ _ _ _ _ fuel i [] (BadIndex (i + 1)) Hfit Hr H).
      * discriminate.
      * discriminate.
Qed.

End Outcomes.

(** ** Records that are skipped and records that stop the run *)

Section Records.

Variable os : OS.
Variable lib : Lib.
Variable secp : Secp256K1.
Variable outputFile : string.
Variables lambda lambda2 privKey : Int.
Variable compressed : bool.
Variable lines : list string.

Local Abbreviation record :=
  (reconstruct_record os lib secp outputFile lambda lambda2 privKey compressed
     lines).
Local Abbreviation loop :=
  (reconstruct_loop os lib secp outputFile lambda lambda2 privKey compressed
     lines).

(** C6.  A record whose address starts with a character other than '1',
    '3', 'b' and 'B' prints its two diagnostics and nothing else: no
    candidate key is computed and nothing goes to the sink.  The pass
    returns, and the run goes on with the loop entered at the next record,
    as after any other record. *)
Theorem unsupported_prefix_skipped (fuel : nat) (i : Z) (addr : string) :
  fits_int lines -> 0 <= i ->
  nth_error lines (Z.to_nat i) = Some ("PubAddress: " ++ addr)%string ->
  data0 addr <> "1"%char -> data0 addr <> "3"%char ->
  data0 addr <> "b"%char -> data0 addr <> "B"%char ->
  record i = (msg_unsupported i addr, Returns tt)
  /\ computed_keys (trace (record i)) = []
  /\ nb_emissions (trace (record i)) = 0%nat
  /\ loop (S fuel) i
     = (msg_unsupported i addr ++ trace (loop fuel (i + 2)),
        result (loop fuel (i + 2))).
Proof.
  intros Hfit Hi Hn H1 H3 Hb HB.
  pose proof (addrType_of_None _ H1 H3 Hb HB) as Ht.
  pose proof (record_unsupported os lib secp outputFile lambda lambda2 privKey
                compressed lines i addr Hi Hn Ht) as Hr.
  split; [exact Hr|]. rewrite Hr. split; [reflexivity|]. split; [reflexivity|].
  apply loop_after_return; [exact Hfit | | exact Hr].
  split; [exact Hi | exact (nth_error_in_range _ _ _ Hi Hn)].
Qed.

(** C7, amended.  A line 2i that does not begin with "PubAddress: " stops
    the run at once with status -1 and a diagnostic naming index 2i.  A
    line 2i+1 that does not begin with "PartialPriv: " does the same (the
    diagnostic again naming index 2i) when line 2i is an address line with
    a supported prefix.  In both cases the trace ends with the diagnostic:
    no later record is looked at. *)
Theorem malformed_prefix_fatal (fuel : nat) (i : Z) :
  fits_int lines -> 0 <= i ->
  (forall l0,
      nth_error lines (Z.to_nat i) = Some l0 ->
      String.prefix "PubAddress: " l0 = false ->
      loop (S fuel) i = ([msg_expected i "PubAddress: "], Exits (-1)))
  /\ (forall addr t l1,
         nth_error lines (Z.to_nat i) = Some ("PubAddress: " ++ addr)%string ->
         addrType_of (data0 addr) = Some t ->
         nth_error lines (Z.to_nat (i + 1)) = Some l1 ->
         String.prefix "PartialPriv: " l1 = false ->
         loop (S fuel) i = ([msg_expected i "PartialPriv: "], Exits (-1))).
Proof.
  intros Hfit Hi. split.
  - intros l0 Hn Hp.
    apply loop_after_stop; [exact Hfit | | | discriminate].
    + split; [exact Hi | exact (nth_error_in_range _ _ _ Hi Hn)].
    + exact (record_bad_address_line _ _ _ _ _ _ _ _ _ _ _ Hi Hn Hp).
  - intros addr t l1 Hn Ht Hn1 Hp.
    apply loop_after_stop; [exact Hfit | | | discriminate].
    + split; [exact Hi | exact (nth_error_in_range _ _ _ Hi Hn)].
    + exact (record_bad_partial_line _ _ _ _ _ _ _ _ _ _ _ _ _ Hi Hn Ht Hn1 Hp).
Qed.

(** C10, amended.  With an even number of lines every line access of the
    loop is inside the vector.  With an odd number, the last pass reads
    line 2i inside the vector; it then reads line 2i+1, one past the end,
    exactly when line 2i is an address line with a supported prefix, and
    otherwise the run ends without leaving the vector. *)
Theorem line_access_bounds :
  fits_int lines ->
  (Nat.even (List.length lines) = true ->
   forall fuel, out_of_range (result (loop fuel 0)) = false)
  /\ (Nat.odd (List.length lines) = true ->
      forall fuel l0,
        let last := Z.of_nat (List.length lines) - 1 in
        nth_error lines (Z.to_nat last) = Some l0 ->
        (forall addr t,
            l0 = ("PubAddress: " ++ addr)%string ->
            addrType_of (data0 addr) = Some t ->
            loop (S fuel) last
            = ([], BadIndex (Z.of_nat (List.length lines))))
        /\ ((forall addr,
                l0 = ("PubAddress: " ++ addr)%string ->
                addrType_of (data0 addr) = None) ->
            out_of_range (result (loop (S fuel) last)) = false)).
Proof.
  intros Hfit. split.
  - intros Hev fuel. apply loop_even_in_bounds; try assumption; [lia|reflexivity].
  - intros Hodd fuel l0 last Hn.
    assert (Hlast : 0 <= last).
    { subst last. destruct lines; [discriminate Hodd|]. cbn [List.length]. lia. }
    assert (Hr : 0 <= last < Z.of_nat (List.length lines)) by (subst last; lia).
    split.
    + intros addr t -> Ht.
      assert (Hlen : Z.of_nat (List.length lines) <= last + 1) by (subst last; lia).
      pose proof (record_no_second_line os lib secp outputFile lambda lambda2
                    privKey compressed lines last addr t Hlast Hn Ht Hlen) as H.
      assert (E : Z.of_nat (List.length lines) = last + 1) by (subst last; lia).
      rewrite E.
      apply loop_after_stop; [exact Hfit | exact Hr | exact H | discriminate].
    + intros Hnot.
      destruct (record_cases os lib secp outputFile lambda lambda2 privKey
                  compressed lines last l0 Hlast Hn)
        as [H|[H|[_ [_ [addr [t [-> Ht]]]]]]].
      * rewrite (loop_after_return _ _ _ _ _ _ _ _ _ fuel last
                   (trace (record last)) Hfit Hr).
        -- cbn [result snd].
           rewrite (loop_done _ _ _ _ _ _ _ _ _ fuel (last + 2) Hfit)
             by (subst last; lia).
           reflexivity.
        -- rewrite <- H. apply surjective_M.
      * rewrite (loop_after_stop _ _ _ _ _ _ _ _ _ fuel last
                   (trace (record last)) (Exits (-1)) Hfit Hr).
        -- reflexivity.
        -- rewrite <- H. apply surjective_M.
        -- discriminate.
      * rewrite (Hnot addr eq_refl) in Ht. discriminate Ht.
Qed.

End Records.

(** ** The whole run *)

Section Run.

Variable os : OS.
Variable lib : Lib.
Variable secp : Secp256K1.

Local Abbreviation loop outputFile privKey compressed lines :=
  (reconstruct_loop os lib secp outputFile lambda_secp256k1 lambda2_secp256k1
     privKey compressed lines).
Local Abbreviation record outputFile privKey compressed lines :=
  (reconstruct_record os lib secp outputFile lambda_secp256k1
     lambda2_secp256k1 privKey compressed lines).

Lemma reconstructAdd_bad_key (fileName outputFile privAddr : string) :
  fst (DecodePrivateKey secp privAddr) < 0 ->
  reconstructAdd os lib secp fileName outputFile privAddr = ([], Exits (-1)).
Proof.
  intros Hk. unfold reconstructAdd. cbv zeta.
  assert (Hneg : IsNegative (fst (DecodePrivateKey secp privAddr)) = true)
    by (unfold IsNegative; apply Z.ltb_lt; exact Hk).
  rewrite Hneg. reflexivity.
Qed.

Lemma reconstructAdd_run (fileName outputFile privAddr : string)
    (pt : list event) (lines : list string) :
  0 <= fst (DecodePrivateKey secp privAddr) ->
  parseFile os fileName [] = (pt, Returns lines) ->
  reconstructAdd os lib secp fileName outputFile privAddr
  = (pt ++ trace (loop outputFile (fst (DecodePrivateKey secp privAddr))
                    (snd (DecodePrivateKey secp privAddr)) lines
                    (List.length lines) 0),
     result (loop outputFile (fst (DecodePrivateKey secp privAddr))
               (snd (DecodePrivateKey secp privAddr)) lines
               (List.length lines) 0)).
Proof.
  intros Hk Hp. unfold reconstructAdd. cbv zeta.
  assert (Hneg : IsNegative (fst (DecodePrivateKey secp privAddr)) = false)
    by (unfold IsNegative; apply Z.ltb_ge; exact Hk).
  rewrite Hneg, bind_ret_l, Hp, bind_Returns.
  destruct constants_of_main as [-> [-> _]]. reflexivity.
Qed.

(** The run always comes to an end by itself. *)
Lemma reconstructAdd_total (fileName outputFile privAddr : string)
    (pt : list event) (lines : list string) :
  parseFile os fileName [] = (pt, Returns lines) -> fits_int lines ->
  result (reconstructAdd os lib secp fileName outputFile privAddr) <> OutOfFuel.
Proof.
  intros Hp Hfit.
  destruct (Z.lt_ge_cases (fst (DecodePrivateKey secp privAddr)) 0) as [Hk|Hk].
  - rewrite (reconstructAdd_bad_key _ _ _ Hk). discriminate.
  - rewrite (reconstructAdd_run _ _ _ _ _ Hk Hp). cbn [result snd].
    apply loop_fuel_enough; [exact Hfit | lia | lia].
Qed.

(** C2, amended.  For every record that reaches the trials, all six
    transforms are tried, in order and whether or not an earlier one
    matched: the scalars handed to the generator multiplication are the six
    candidates.  The sink receives one record per transform whose candidate
    address equals the target, hence exactly one when exactly one transform
    matches. *)
Theorem every_transform_tried (outputFile : string) (privKey : Int)
    (compressed : bool) (lines : list string) (i : Z) (addr ptext : string)
    (t : AddrType) :
  0 <= i -> 0 <= privKey ->
  nth_error lines (Z.to_nat i) = Some ("PubAddress: " ++ addr)%string ->
  addrType_of (data0 addr) = Some t ->
  nth_error lines (Z.to_nat (i + 1)) = Some ("PartialPriv: " ++ ptext)%string ->
  snd (DecodePrivateKey secp ptext) = compressed ->
  let partial := fst (DecodePrivateKey secp ptext) in
  let tr := trace (record outputFile privKey compressed lines i) in
  computed_keys tr = map (candidate partial) (transforms privKey)
  /\ nb_emissions tr
     = List.length (filter (hit secp compressed t addr partial)
                      (transforms privKey))
  /\ (List.length (filter (hit secp compressed t addr partial)
                     (transforms privKey)) = 1%nat ->
      nb_emissions tr = 1%nat).
Proof.
  intros Hi Hk Hn Ht Hn1 Hmode partial tr.
  assert (Htr : tr
    = flat_map (attempt os lib secp outputFile compressed t addr partial)
        (transforms privKey)
      ++ (if existsb (hit secp compressed t addr partial) (transforms privKey)
          then [] else [msg_unable i addr ptext])).
  { subst tr. rewrite (record_decoded _ _ _ _ _ _ _ _ _ _ _ _ _ Hi Hn Ht Hn1 Hk).
    rewrite Hmode, Bool.eqb_reflx. cbn [negb].
    rewrite reconstruct_key_attempts, offsets_transforms. reflexivity. }
  assert (Hc : nb_emissions tr
               = List.length (filter (hit secp compressed t addr partial)
                                (transforms privKey))).
  { rewrite Htr, nb_emissions_app, attempts_count.
    destruct (existsb _ _).
    - change (nb_emissions []) with 0%nat. apply Nat.add_0_r.
    - change (nb_emissions [msg_unable i addr ptext]) with 0%nat.
      apply Nat.add_0_r. }
  split; [|split; [exact Hc | intros H; now rewrite Hc]].
  rewrite Htr, computed_keys_app, attempts_keys.
  destruct (existsb _ _); cbn [computed_keys msg_unable]; now rewrite app_nil_r.
Qed.

Lemma has_block_app_r (b t t' : list event) :
  has_block b t -> has_block b (t ++ t').
Proof.
  intros [pre [post ->]]. exists pre, (post ++ t').
  now rewrite <- !app_assoc.
Qed.

(** C1.  Take an accepted base scalar [k], a record file holding the single
    record (address line, partial key line), a partial key text decoding to
    [partial] with the compression flag of the base key, and a transform
    index between 1 and 6.  If the target address is the encoding, for the
    record's address type and that compression flag, of the public point of
    [full = (partial + T i k) mod n], then the run returns normally, does
    not report the record as unresolved, and sends to the sink the record
    made of the target address and of the texts of [full], whose derived
    address is the target.  The transforms are built from the published
    lambda constants of secp256k1. *)
Theorem reconstruct_complete (fileName outputFile privAddr : string)
    (pt : list event) (addr ptext : string) (k partial : Int) (c : bool)
    (t : AddrType) (i : nat) :
  parseFile os fileName []
  = (pt, Returns [("PubAddress: " ++ addr)%string;
                  ("PartialPriv: " ++ ptext)%string]) ->
  DecodePrivateKey secp privAddr = (k, c) -> 0 <= k ->
  DecodePrivateKey secp ptext = (partial, c) ->
  addrType_of (data0 addr) = Some t ->
  (1 <= i <= 6)%nat ->
  let full := (partial + T i k) mod n_secp256k1 in
  GetAddress secp t c (ComputePublicKey secp full) = addr ->
  exists rt,
    reconstructAdd os lib secp fileName outputFile privAddr
    = (pt ++ rt, Returns tt)
    /\ ~ In (msg_unable 0 addr ptext) rt
    /\ has_block
         (emission os outputFile t addr (GetPrivAddress secp c full)
            (GetBase16 lib full)) rt
    /\ nth_error (computed_keys rt) (i - 1) = Some full.
Proof.
  intros Hp Hd Hk Hdp Ht Hi full Haddr.
  set (lines := [("PubAddress: " ++ addr)%string;
                 ("PartialPriv: " ++ ptext)%string]) in *.
  assert (Hfit : fits_int lines) by (unfold fits_int, lines; cbn; lia).
  assert (Hhit : hit secp c t addr partial (T i k) = true).
  { unfold hit, candidate_address, candidate. fold full. rewrite Haddr.
    apply String.eqb_refl. }
  destruct (attempts_hit os lib secp outputFile c t addr partial (T i k)
              (transforms k) (T_in_transforms i k Hi) Hhit) as [Hex Hblock].
  exists (flat_map (attempt os lib secp outputFile c t addr partial)
            (transforms k)).
  split; [|split; [apply attempts_no_unable | split; [exact Hblock|]]].
  - rewrite (reconstructAdd_run fileName outputFile privAddr pt lines)
      by (rewrite ?Hd; assumption).
    rewrite Hd. cbn [fst snd List.length lines].
    fold lines.
    rewrite (loop_step os lib secp outputFile _ _ k c lines 1 0 Hfit)
      by (unfold lines; cbn; lia).
    rewrite (record_decoded os lib secp outputFile _ _ k c lines 0 addr ptext t)
      by (try reflexivity; try assumption; lia).
    rewrite Hdp. cbn [fst snd]. rewrite Bool.eqb_reflx. cbn [negb].
    rewrite reconstruct_key_attempts, offsets_transforms, Hex, bind_Returns.
    rewrite (loop_done os lib secp outputFile _ _ k c lines 1 (0 + 2) Hfit)
      by (unfold lines; cbn; lia).
    unfold ret, trace, result; cbn [fst snd]. now rewrite !app_nil_r.
  - rewrite attempts_keys, nth_error_map.
    unfold transforms. rewrite nth_error_map.
    assert (Hs : nth_error (seq 1 6) (i - 1) = Some i).
    { destruct i as [|[|[|[|[|[|[|i]]]]]]]; try reflexivity; lia. }
    rewrite Hs. reflexivity.
Qed.

End Run.

(** ** Worked runs on the sample world *)

Local Open Scope string_scope.

Lemma pad_length (n : nat) (l : list byte) : List.length (Sample.pad n l) = n.
Proof.
  unfold Sample.pad. rewrite length_firstn, length_app, repeat_length. lia.
Qed.

Lemma Sample_hash_lengths : hash_lengths Sample.lib.
Proof. split; intros; apply pad_length. Qed.

Lemma generateKeyPair_short_seed_witness :
  (String.length "short" < 8)%nat
  /\ generateKeyPair Sample.lib Sample.secp Sample.getSeed_zero "short"
       SEARCH_BOTH true
     = ([ EvPrintf (CLR_RED
            ++ "Error: Use a seed of at least 8 characters to generate a key pair"
            ++ CLR_RESET ++ LF);
          EvPrintf ("Ex: VanitySearch -s " ++ DQ ++ "A Strong Password" ++ DQ
                    ++ " -kp" ++ LF) ],
        Exits (-1)).
Proof.
  assert (H : (String.length "short" < 8)%nat) by (simpl; lia).
  split; [exact H|].
  exact (proj1 (generateKeyPair_short_seed Sample.lib Sample.secp
                  Sample.getSeed_zero "short" SEARCH_BOTH true H)).
Defined.

Lemma generateKeyPair_derivation_witness :
  hash_lengths Sample.lib
  /\ (8 <= String.length "correct horse")%nat
  /\ SEARCH_COMPRESSED <> SEARCH_BOTH
  /\ computed_keys
       (trace (generateKeyPair Sample.lib Sample.secp Sample.getSeed_zero
                 "correct horse" SEARCH_COMPRESSED true))
     = [Int_of_bits64
          (sha256 Sample.lib
             (pbkdf2_hmac_sha512 Sample.lib 64 "correct horse00"
                "VanitySearch" 2048))].
Proof.
  assert (H1 : (8 <= String.length "correct horse")%nat) by (simpl; lia).
  assert (H2 : SEARCH_COMPRESSED <> SEARCH_BOTH) by discriminate.
  split; [exact Sample_hash_lengths|]. split; [exact H1|]. split; [exact H2|].
  rewrite (proj1 (generateKeyPair_derivation Sample.lib Sample.secp
                    Sample.getSeed_zero "correct horse" SEARCH_COMPRESSED true
                    Sample_hash_lengths H1 H2)).
  reflexivity.
Defined.

(** A digest above the group order is used as it is. *)
Lemma derived_scalar_not_reduced :
  computed_keys
    (trace (generateKeyPair Sample.lib_ff Sample.secp Sample.getSeed_zero
              "correct horse" SEARCH_COMPRESSED false))
  = [2 ^ 256 - 1]
  /\ order <= 2 ^ 256 - 1.
Proof. split; vm_compute; [reflexivity | discriminate]. Qed.

Lemma generateKeyPair_deterministic_witness :
  (8 <= String.length "correct horse")%nat
  /\ generateKeyPair Sample.lib Sample.secp Sample.getSeed_zero
       "correct horse" SEARCH_UNCOMPRESSED false
     = generateKeyPair Sample.lib Sample.secp Sample.getSeed_one
         "correct horse" SEARCH_UNCOMPRESSED false.
Proof.
  assert (H : (8 <= String.length "correct horse")%nat) by (simpl; lia).
  split; [exact H|].
  exact (proj1 (generateKeyPair_deterministic Sample.lib Sample.secp
                  Sample.getSeed_zero Sample.getSeed_one "correct horse"
                  SEARCH_UNCOMPRESSED H)).
Defined.

(** In paranoiac mode the random source does change the derived key. *)
Lemma paranoiac_depends_on_random_source :
  computed_keys
    (trace (generateKeyPair Sample.lib Sample.secp Sample.getSeed_zero
              "correct horse" SEARCH_UNCOMPRESSED true))
  <> computed_keys
       (trace (generateKeyPair Sample.lib Sample.secp Sample.getSeed_one
                 "correct horse" SEARCH_UNCOMPRESSED true)).
Proof. vm_compute. discriminate. Qed.

Lemma unsupported_prefix_skipped_witness :
  fits_int Sample.unsupported_first
  /\ nth_error Sample.unsupported_first (Z.to_nat 0)
     = Some ("PubAddress: " ++ "xyz")
  /\ Sample.record5 Sample.unsupported_first 0
     = (msg_unsupported 0 "xyz", Returns tt)
  /\ Sample.loop5 Sample.unsupported_first 2 0
     = ((msg_unsupported 0 "xyz"
         ++ trace (Sample.loop5 Sample.unsupported_first 1 2))%list,
        result (Sample.loop5 Sample.unsupported_first 1 2))
  /\ nb_emissions (trace (Sample.loop5 Sample.unsupported_first 1 2)) = 1%nat.
Proof.
  assert (Hfit : fits_int Sample.unsupported_first) by (vm_compute; reflexivity).
  assert (Hn : nth_error Sample.unsupported_first (Z.to_nat 0)
               = Some ("PubAddress: " ++ "xyz")) by reflexivity.
  pose proof (unsupported_prefix_skipped
                (Sample.input Sample.unsupported_first) Sample.lib
                Sample.secp EmptyString lambda_secp256k1 lambda2_secp256k1
                5 false Sample.unsupported_first 1 0 "xyz" Hfit (Z.le_refl 0) Hn
                ltac:(discriminate) ltac:(discriminate)
                ltac:(discriminate) ltac:(discriminate)) as [H1 [_ [_ H4]]].
  split; [exact Hfit|]. split; [exact Hn|]. split; [exact H1|].
  split; [exact H4|]. vm_compute. reflexivity.
Defined.

Lemma malformed_prefix_fatal_witness :
  fits_int Sample.malformed_lines
  /\ String.prefix "PartialPriv: " "garbage" = false
  /\ String.prefix "PubAddress: " "nonsense" = false
  /\ Sample.loop5 Sample.malformed_lines 2 0
     = ([msg_expected 0 "PartialPriv: "], Exits (-1))
  /\ Sample.loop5 Sample.malformed_lines 1 2
     = ([msg_expected 2 "PubAddress: "], Exits (-1)).
Proof.
  assert (Hfit : fits_int Sample.malformed_lines) by (vm_compute; reflexivity).
  assert (Hp1 : String.prefix "PartialPriv: " "garbage" = false) by reflexivity.
  assert (Hp0 : String.prefix "PubAddress: " "nonsense" = false) by reflexivity.
  split; [exact Hfit|]. split; [exact Hp1|]. split; [exact Hp0|]. split.
  - exact (proj2 (malformed_prefix_fatal
                    (Sample.input Sample.malformed_lines) Sample.lib
                    Sample.secp EmptyString lambda_secp256k1 lambda2_secp256k1
                    5 false Sample.malformed_lines 1 0 Hfit (Z.le_refl 0))
             "1u7" P2PKH "garbage" eq_refl eq_refl eq_refl Hp1).
  - exact (proj1 (malformed_prefix_fatal
                    (Sample.input Sample.malformed_lines) Sample.lib
                    Sample.secp EmptyString lambda_secp256k1 lambda2_secp256k1
                    5 false Sample.malformed_lines 0 2 Hfit ltac:(lia))
             "nonsense" eq_refl Hp0).
Defined.

(** An unsupported address hides a malformed second line: line 1 of the
    file does not begin with "PartialPriv: ", and yet the run does not
    leave with a status; it completes and solves the next record. *)
Lemma bad_partial_line_after_unsupported_address :
  result (parseFile (Sample.input Sample.unsupported_first) "in.txt" [])
  = Returns Sample.unsupported_first
  /\ nth_error Sample.unsupported_first 1 = Some "garbage"
  /\ String.prefix "PartialPriv: " "garbage" = false
  /\ (forall status,
         result (Sample.run Sample.unsupported_first "55") <> Exits status)
  /\ result (Sample.run Sample.unsupported_first "55") = Returns tt
  /\ nb_emissions (trace (Sample.run Sample.unsupported_first "55")) = 1%nat
  /\ In (EvFprintf stdout (LF ++ "Pub Addr: 1u7" ++ LF))
       (trace (Sample.run Sample.unsupported_first "55")).
Proof.
  vm_compute. repeat split; try reflexivity; try discriminate.
  repeat (first [left; reflexivity | right]).
Qed.

Lemma line_access_bounds_witness :
  fits_int Sample.unsupported_first
  /\ Nat.even (List.length Sample.unsupported_first) = true
  /\ (forall fuel,
         out_of_range (result (Sample.loop5 Sample.unsupported_first fuel 0))
         = false)
  /\ fits_int Sample.odd_ending_in_address
  /\ Nat.odd (List.length Sample.odd_ending_in_address) = true
  /\ Sample.loop5 Sample.odd_ending_in_address 1 2 = ([], BadIndex 3).
Proof.
  assert (Hfe : fits_int Sample.unsupported_first) by (vm_compute; reflexivity).
  assert (Hfo : fits_int Sample.odd_ending_in_address)
    by (vm_compute; reflexivity).
  split; [exact Hfe|]. split; [reflexivity|]. split.
  - exact (proj1 (line_access_bounds
                    (Sample.input Sample.unsupported_first) Sample.lib
                    Sample.secp EmptyString lambda_secp256k1 lambda2_secp256k1
                    5 false Sample.unsupported_first Hfe) eq_refl).
  - split; [exact Hfo|]. split; [reflexivity|].
    exact (proj1 (proj2 (line_access_bounds
                           (Sample.input Sample.odd_ending_in_address)
                           Sample.lib Sample.secp EmptyString lambda_secp256k1
                           lambda2_secp256k1 5 false
                           Sample.odd_ending_in_address Hfo)
                    eq_refl 0%nat "PubAddress: 1u7" eq_refl)
             "1u7" P2PKH eq_refl eq_refl).
Defined.

(** Files with an odd number of lines on which no line access leaves the
    vector: the last line is an address of unsupported format, or it is
    not an address line. *)
Lemma odd_line_count_without_bad_access :
  result (parseFile (Sample.input Sample.odd_ending_in_unsupported) "in.txt" [])
  = Returns Sample.odd_ending_in_unsupported
  /\ Nat.odd (List.length Sample.odd_ending_in_unsupported) = true
  /\ result (Sample.run Sample.odd_ending_in_unsupported "55") = Returns tt
  /\ out_of_range (result (Sample.run Sample.odd_ending_in_unsupported "55"))
     = false
  /\ result (parseFile (Sample.input ["garbage"]) "in.txt" [])
     = Returns ["garbage"]
  /\ result (Sample.run ["garbage"] "55") = Exits (-1)
  /\ out_of_range (result (Sample.run ["garbage"] "55")) = false.
Proof. vm_compute. repeat split; reflexivity. Qed.

(** C3.  The code at the failing input.  As a base key, the text "5x" is
    refused: it decodes to the sentinel -1 and the run ends with status -1
    before the record file is opened.  As the partial key of a record,
    under the accepted base key "55", the same text is not detected: the
    guard that follows its decoding tests the base key, so the record is
    neither skipped nor reported.  No diagnostic is printed at all; the
    flag left by the decoder equals the base key's, the six candidates are
    computed from the scalar -1, and the first of them, (-1 + 5) mod n = 4,
    is sent to the sink as the key of the target address. *)
Theorem undecodable_partial_key_not_skipped :
  result (parseFile (Sample.input Sample.undecodable_partial) "in.txt" [])
  = Returns Sample.undecodable_partial
  /\ DecodePrivateKey Sample.secp "5x" = (-1, false)
  /\ DecodePrivateKey Sample.secp "55" = (5, false)
  /\ result (Sample.run Sample.undecodable_partial "55") = Returns tt
  /\ computed_keys (trace (Sample.run Sample.undecodable_partial "55")) <> []
  /\ List.length
       (computed_keys (trace (Sample.run Sample.undecodable_partial "55")))
     = 6%nat
  /\ nth_error
       (computed_keys (trace (Sample.run Sample.undecodable_partial "55"))) 0
     = Some 4
  /\ nb_emissions (trace (Sample.run Sample.undecodable_partial "55")) = 1%nat
  /\ In (EvFprintf stdout (LF ++ "Pub Addr: 1u4" ++ LF))
       (trace (Sample.run Sample.undecodable_partial "55"))
  /\ (forall text,
         ~ In (EvPrintf text) (trace (Sample.run Sample.undecodable_partial "55")))
  /\ Sample.run Sample.undecodable_partial "5x" = ([], Exits (-1)).
Proof.
  vm_compute. repeat split; try reflexivity; try discriminate.
  - repeat (first [left; reflexivity | right]).
  - intros text H.
    repeat (destruct H as [H|H]; [discriminate H|]). exact H.
Qed.

Lemma every_transform_tried_witness :
  computed_keys (trace (Sample.record5 Sample.one_record 0))
  = map (candidate 2) (transforms 5)
  /\ nb_emissions (trace (Sample.record5 Sample.one_record 0))
     = List.length (filter (hit Sample.secp false P2PKH "1u7" 2) (transforms 5)).
Proof.
  pose proof (every_transform_tried (Sample.input Sample.one_record) Sample.lib
                Sample.secp EmptyString 5 false Sample.one_record 0 "1u7" "52"
                P2PKH (Z.le_refl 0) ltac:(lia) eq_refl eq_refl eq_refl eq_refl)
    as [H1 [H2 _]].
  split; [exact H1 | exact H2].
Defined.

(** With the base key 0 the six candidates coincide: the first transform
    matches, the five others are still tried, and the sink receives six
    records for the one input record.  With the base key 5 only the first
    transform matches, and the five others are tried all the same. *)
Lemma first_match_does_not_stop :
  result (parseFile (Sample.input Sample.one_record_same) "in.txt" [])
  = Returns Sample.one_record_same
  /\ DecodePrivateKey Sample.secp "50" = (0, false)
  /\ hit Sample.secp false P2PKH "1u7" 7 (T 1 0) = true
  /\ computed_keys (trace (Sample.run Sample.one_record_same "50"))
     = [7; 7; 7; 7; 7; 7]
  /\ nb_emissions (trace (Sample.run Sample.one_record_same "50")) = 6%nat
  /\ nb_emissions (trace (Sample.run Sample.one_record_same "50")) <> 1%nat
  /\ hit Sample.secp false P2PKH "1u7" 2 (T 1 5) = true
  /\ List.length (computed_keys (trace (Sample.run Sample.one_record "55")))
     = 6%nat
  /\ nb_emissions (trace (Sample.run Sample.one_record "55")) = 1%nat.
Proof. vm_compute. repeat split; try reflexivity; discriminate. Qed.

Lemma reconstruct_complete_witness :
  parseFile (Sample.input Sample.one_record_sym) "in.txt" []
  = ([EvFopen "in.txt" "rb" true; EvFclose "in.txt"],
     Returns Sample.one_record_sym)
  /\ DecodePrivateKey Sample.secp "55" = (5, false)
  /\ DecodePrivateKey Sample.secp "57" = (7, false)
  /\ GetAddress Sample.secp P2PKH false
       (ComputePublicKey Sample.secp ((7 + T 4 5) mod n_secp256k1)) = "1u2"
  /\ exists rt,
       Sample.run Sample.one_record_sym "55"
       = (([EvFopen "in.txt" "rb" true; EvFclose "in.txt"] ++ rt)%list,
          Returns tt)
       /\ has_block (sink_record stdout P2PKH "1u2" "52" "2") rt.
Proof.
  assert (Hp : parseFile (Sample.input Sample.one_record_sym) "in.txt" []
               = ([EvFopen "in.txt" "rb" true; EvFclose "in.txt"],
                  Returns ["PubAddress: " ++ "1u2"; "PartialPriv: " ++ "57"]))
    by reflexivity.
  assert (Ha : GetAddress Sample.secp P2PKH false
                 (ComputePublicKey Sample.secp ((7 + T 4 5) mod n_secp256k1))
               = "1u2") by (vm_compute; reflexivity).
  split; [exact Hp|]. split; [reflexivity|]. split; [reflexivity|].
  split; [exact Ha|].
  destruct (reconstruct_complete (Sample.input Sample.one_record_sym)
              Sample.lib Sample.secp "in.txt" EmptyString "55" _ "1u2" "57"
              5 7 false P2PKH 4 Hp eq_refl ltac:(lia) eq_refl eq_refl
              ltac:(lia) Ha)
    as [rt [H1 [_ [H3 _]]]].
  exists rt. split; [exact H1|].
  replace (sink_record stdout P2PKH "1u2" "52" "2")
    with (emission (Sample.input Sample.one_record_sym) EmptyString P2PKH "1u2"
            (GetPrivAddress Sample.secp false ((7 + T 4 5) mod n_secp256k1))
            (GetBase16 Sample.lib ((7 + T 4 5) mod n_secp256k1)))
    by (vm_compute; reflexivity).
  exact H3.
Defined.

(* ------------------------------------------------------------------ *)
(** * Further properties of main.cpp *)

Local Close Scope string_scope.

(** ** parseFile *)

Lemma rstrip_nonempty_inv (s : string) :
  rstrip s = EmptyString -> all_space s = true.
Proof.
  induction s as [|c s IH]; [reflexivity|].
  cbn [rstrip all_space]. destruct (rstrip s) eqn:E.
  - destruct (isspace c); [intros _; now rewrite IH | discriminate].
  - discriminate.
Qed.

Lemma rstrip_all_space (s : string) :
  all_space s = true -> rstrip s = EmptyString.
Proof.
  induction s as [|c s IH]; [reflexivity|].
  cbn [rstrip all_space]. intros H. apply andb_prop in H. destruct H as [Hc Hs].
  now rewrite (IH Hs), Hc.
Qed.

Lemma rstrip_ends (s : string) : ends_in_space (rstrip s) = false.
Proof.
  induction s as [|c s IH]; [reflexivity|].
  cbn [rstrip]. destruct (rstrip s) as [|d r] eqn:E.
  - destruct (isspace c) eqn:Hc; [reflexivity|]. cbn. exact Hc.
  - cbn [ends_in_space]. exact IH.
Qed.

Lemma rstrip_clean (s : string) : ends_in_space s = false -> rstrip s = s.
Proof.
  induction s as [|c s IH]; [reflexivity|].
  cbn [rstrip ends_in_space]. destruct s as [|d s].
  - intros Hc. cbn [rstrip]. now rewrite Hc.
  - intros H. rewrite (IH H). reflexivity.
Qed.

Lemma rstrip_app_space (s w : string) :
  all_space w = true -> rstrip (s ++ w) = rstrip s.
Proof.
  intros Hw. induction s as [|c s IH].
  - cbn [String.append]. now rewrite rstrip_all_space.
  - cbn [String.append rstrip]. now rewrite IH.
Qed.

(** Nothing but trailing white space is removed. *)
Lemma rstrip_split (s : string) :
  exists w, s = (rstrip s ++ w)%string /\ all_space w = true.
Proof.
  induction s as [|c s [w [Hs Hw]]].
  - exists EmptyString. split; reflexivity.
  - cbn [rstrip]. destruct (rstrip s) as [|d r] eqn:E.
    + destruct (isspace c) eqn:Hc.
      * exists (String c s). split; [reflexivity|].
        cbn [all_space]. rewrite Hc. now apply rstrip_nonempty_inv.
      * exists w. split; [|exact Hw]. cbn [String.append]. now rewrite Hs at 1.
    + exists w. split; [|exact Hw]. cbn [String.append].
      f_equal. exact Hs.
Qed.

Lemma getlines_row (l rest : string) :
  no_LF l = true -> getlines (l ++ LF ++ rest) = l :: getlines rest.
Proof.
  induction l as [|c l IH]; intros H.
  - reflexivity.
  - cbn [no_LF] in H. apply andb_prop in H. destruct H as [Hc Hl].
    cbn [String.append getlines].
    destruct (Ascii.eqb c (ascii_of_nat 10)); [discriminate Hc|].
    change (l ++ String (ascii_of_nat 10) rest)%string with (l ++ LF ++ rest)%string.
    now rewrite (IH Hl).
Qed.

Lemma no_LF_app (a b : string) :
  no_LF (a ++ b) = no_LF a && no_LF b.
Proof.
  induction a as [|c a IH]; [reflexivity|].
  cbn [String.append no_LF]. rewrite IH. now rewrite andb_assoc.
Qed.

Section ParseFileProps.

Variable os : OS.

Lemma parseFile_loop_result (lp : bool) (nbAddr : Z) (input lines : list string)
    (nbLine : Z) :
  result (parseFile_loop os lp nbAddr input lines nbLine)
  = Returns (lines ++ filter nonempty (map rstrip input)).
Proof.
  revert lines nbLine. induction input as [|l input IH]; intros lines nbLine.
  - cbn. now rewrite app_nil_r.
  - cbn [parseFile_loop map filter].
    change (0 <? String.length (rstrip l))%nat with (nonempty (rstrip l)).
    destruct (nonempty (rstrip l)).
    + cbv zeta. destruct (lp && _).
      * unfold printf, emit. rewrite bind_Returns. cbn [result snd].
        rewrite IH, <- app_assoc. reflexivity.
      * rewrite bind_ret_l, IH, <- app_assoc. reflexivity.
    + apply IH.
Qed.

Lemma parseFile_loop_silent (nbAddr : Z) (input lines : list string)
    (nbLine : Z) :
  trace (parseFile_loop os false nbAddr input lines nbLine) = [].
Proof.
  revert lines nbLine. induction input as [|l input IH]; intros lines nbLine.
  - reflexivity.
  - cbn [parseFile_loop]. destruct (0 <? String.length (rstrip l))%nat.
    + cbv zeta. cbn [andb]. rewrite bind_ret_l. apply IH.
    + apply IH.
Qed.

Lemma parseFile_loop_handles (lp : bool) (nbAddr : Z) (input lines : list string)
    (nbLine : Z) :
  open_handles (trace (parseFile_loop os lp nbAddr input lines nbLine)) = 0.
Proof.
  revert lines nbLine. induction input as [|l input IH]; intros lines nbLine.
  - reflexivity.
  - cbn [parseFile_loop]. destruct (0 <? String.length (rstrip l))%nat.
    + cbv zeta. destruct (lp && _).
      * unfold printf, emit. rewrite bind_Returns.
        cbn [trace fst app open_handles]. apply IH.
      * rewrite bind_ret_l. apply IH.
    + apply IH.
Qed.

End ParseFileProps.

Lemma getlines_no_LF (s : string) :
  Forall (fun l => no_LF l = true) (getlines s).
Proof.
  induction s as [|c s IH]; [constructor|].
  cbn [getlines]. destruct (Ascii.eqb c (ascii_of_nat 10)) eqn:Hc.
  - constructor; [reflexivity | exact IH].
  - destruct (getlines s) as [|l ls].
    + constructor; [|constructor]. cbn [no_LF]. now rewrite Hc.
    + inversion IH as [|? ? Hl Hls]; subst. constructor; [|exact Hls].
      cbn [no_LF]. now rewrite Hc, Hl.
Qed.

Lemma kept_lines_spec (content l : string) :
  In l (kept_lines content) ->
  l <> EmptyString /\ ends_in_space l = false /\ no_LF l = true
  /\ exists w, In (l ++ w)%string (getlines content) /\ all_space w = true.
Proof.
  unfold kept_lines. intros H. apply filter_In in H. destruct H as [H Hne].
  apply in_map_iff in H. destruct H as [raw [<- Hraw]].
  destruct (rstrip_split raw) as [w [Hs Hw]].
  split; [|split; [|split]].
  - intros E. rewrite E in Hne. discriminate Hne.
  - apply rstrip_ends.
  - pose proof (getlines_no_LF content) as Hall.
    rewrite Forall_forall in Hall. specialize (Hall raw Hraw).
    rewrite Hs, no_LF_app in Hall. apply andb_prop in Hall. exact (proj1 Hall).
  - exists w. split; [now rewrite <- Hs | exact Hw].
Qed.

Lemma string_app_assoc (a b c : string) :
  ((a ++ b) ++ c)%string = (a ++ (b ++ c))%string.
Proof. induction a as [|x a IH]; [reflexivity|]. cbn. now rewrite IH. Qed.

Lemma kept_lines_rows (rows : list (string * string)) :
  Forall (fun row => clean_row row = true) rows ->
  kept_lines (file_text rows) = map fst rows.
Proof.
  unfold kept_lines. induction 1 as [|[l w] rows Hrow _ IH]; [reflexivity|].
  unfold clean_row in Hrow. cbn [fst snd] in Hrow.
  repeat (apply andb_prop in Hrow; destruct Hrow as [Hrow ?]).
  cbn [file_text map fst].
  change (l ++ w ++ LF ++ file_text rows)%string
    with (l ++ (w ++ (LF ++ file_text rows)))%string.
  rewrite <- string_app_assoc.
  change ((l ++ w) ++ LF ++ file_text rows)%string
    with ((l ++ w) ++ (LF ++ file_text rows))%string.
  rewrite getlines_row by (rewrite no_LF_app; now apply andb_true_intro).
  cbn [map filter]. rewrite rstrip_app_space by assumption.
  rewrite rstrip_clean by (now apply negb_true_iff).
  rewrite Hrow, IH. reflexivity.
Qed.

Section ParseFileTheorems.

Variable os : OS.

Lemma parseFile_readable (fileName content : string) (lines : list string) :
  read_file os fileName = Some content ->
  result (parseFile os fileName lines) = Returns (lines ++ kept_lines content).
Proof.
  intros Hr. unfold parseFile, fopen, fclose, emit. rewrite Hr.
  rewrite !bind_Returns. cbn [result snd].
  rewrite (surjective_M (parseFile_loop _ _ _ _ _ _)), parseFile_loop_result.
  rewrite bind_Returns. cbn [result snd].
  destruct (100000 <? _); unfold printf, emit, ret;
    rewrite ?bind_Returns; reflexivity.
Qed.

(** X1.  The vector handed to [parseFile] keeps its content; the lines of the
    file are appended to it.  Each appended line is a line of the file
    without its trailing white space, and is neither empty nor ended by
    white space (so never by a carriage return), nor does it hold a line
    feed. *)
Theorem parseFile_appends_trimmed_lines (fileName content : string)
    (lines : list string) :
  read_file os fileName = Some content ->
  result (parseFile os fileName lines) = Returns (lines ++ kept_lines content)
  /\ forall l, In l (kept_lines content) ->
       l <> EmptyString /\ ends_in_space l = false /\ no_LF l = true
       /\ exists w, In (l ++ w)%string (getlines content) /\ all_space w = true.
Proof.
  intros Hr. split; [now apply parseFile_readable|].
  intros l. apply kept_lines_spec.
Qed.

(** X3.  A file of at most 100000 bytes is loaded without progress output: the
    only events are the open and the close of the size probe. *)
Theorem parseFile_small_file_silent (fileName content : string)
    (lines : list string) :
  read_file os fileName = Some content ->
  Z.of_nat (String.length content) <= 100000 ->
  parseFile os fileName lines
  = ([EvFopen fileName "rb" true; EvFclose fileName],
     Returns (lines ++ kept_lines content)).
Proof.
  intros Hr Hsz.
  rewrite (surjective_M (parseFile os fileName lines)).
  rewrite (parseFile_readable _ _ _ Hr). f_equal.
  unfold parseFile, fopen, fclose, emit. rewrite Hr.
  assert (Hlp : (100000 <? Z.of_nat (String.length content)) = false)
    by (apply Z.ltb_ge; exact Hsz).
  rewrite !bind_Returns. cbv zeta. rewrite Hlp.
  rewrite (surjective_M (parseFile_loop _ _ _ _ _ _)).
  rewrite parseFile_loop_silent, parseFile_loop_result.
  rewrite bind_Returns, bind_ret_l. reflexivity.
Qed.

(** X2.  A file made of clean rows (a non-empty line without line feed and
    without trailing white space, then white-space padding such as a
    carriage return, then a line feed) is read back as exactly its lines. *)
Theorem parseFile_reads_rows (fileName : string)
    (rows : list (string * string)) (lines : list string) :
  Forall (fun row => clean_row row = true) rows ->
  read_file os fileName = Some (file_text rows) ->
  result (parseFile os fileName lines) = Returns (lines ++ map fst rows).
Proof.
  intros Hrows Hr. rewrite (parseFile_readable _ _ _ Hr).
  now rewrite kept_lines_rows.
Qed.

(** X4.  A loaded line that passes the test of the address prefix, or of the
    partial key prefix, has at least one character after the prefix: the
    prefixes end in a blank, and no loaded line does.  So [addr.data()[0]]
    never reads the terminator of an empty address. *)
Theorem loaded_fields_never_empty (content l : string) :
  In l (kept_lines content) ->
  (String.prefix "PubAddress: " l = true ->
   exists c addr, l = ("PubAddress: " ++ String c addr)%string
                  /\ data0 (String c addr) = c)
  /\ (String.prefix "PartialPriv: " l = true ->
      exists c key, l = ("PartialPriv: " ++ String c key)%string).
Proof.
  intros Hin. destruct (kept_lines_spec _ _ Hin) as [_ [Hend _]].
  split; intros Hp; destruct (prefix_split _ _ Hp) as [r ->];
    destruct r as [|c r]; try (cbn in Hend; discriminate Hend).
  - exists c, r. split; reflexivity.
  - exists c, r. reflexivity.
Qed.

End ParseFileTheorems.

(** ** reconstructAdd: what a pass over a record leaves behind *)

Section Passes.

Variable os : OS.
Variable lib : Lib.
Variable secp : Secp256K1.
Variable outputFile : string.
Variable privKey : Int.
Variable compressed : bool.
Variable lines : list string.

Local Abbreviation record :=
  (reconstruct_record os lib secp outputFile lambda_secp256k1
     lambda2_secp256k1 privKey compressed lines).
Local Abbreviation loop :=
  (reconstruct_loop os lib secp outputFile lambda_secp256k1 lambda2_secp256k1
     privKey compressed lines).

Lemma record_trials (i : Z) (addr ptext : string) (t : AddrType) :
  0 <= i -> 0 <= privKey ->
  nth_error lines (Z.to_nat i) = Some ("PubAddress: " ++ addr)%string ->
  addrType_of (data0 addr) = Some t ->
  nth_error lines (Z.to_nat (i + 1)) = Some ("PartialPriv: " ++ ptext)%string ->
  snd (DecodePrivateKey secp ptext) = compressed ->
  record i
  = (flat_map
       (attempt os lib secp outputFile compressed t addr
          (fst (DecodePrivateKey secp ptext)))
       (transforms privKey)
     ++ (if existsb
              (hit secp compressed t addr (fst (DecodePrivateKey secp ptext)))
              (transforms privKey)
         then [] else [msg_unable i addr ptext]),
     Returns tt).
Proof.
  intros Hi Hk Hn Ht Hn1 Hmode.
  rewrite (record_decoded _ _ _ _ _ _ _ _ _ _ _ _ _ Hi Hn Ht Hn1 Hk).
  rewrite Hmode, Bool.eqb_reflx. cbn [negb].
  now rewrite reconstruct_key_attempts, offsets_transforms.
Qed.

(** X6.  Whatever a pass over a well-formed record leaves in the trace is
    accounted for: a generator multiplication of one of the six
    candidates; or part of the sink record of a candidate whose encoded
    address is the target, written with the target address and the texts of
    that very candidate; or the "unable to reconstruct" diagnostic, which
    appears only when no candidate matches.  Nothing is sent to the sink
    for a candidate that does not match. *)
Theorem emissions_are_sound (i : Z) (addr ptext : string) (t : AddrType) :
  0 <= i -> 0 <= privKey ->
  nth_error lines (Z.to_nat i) = Some ("PubAddress: " ++ addr)%string ->
  addrType_of (data0 addr) = Some t ->
  nth_error lines (Z.to_nat (i + 1)) = Some ("PartialPriv: " ++ ptext)%string ->
  snd (DecodePrivateKey secp ptext) = compressed ->
  let partial := fst (DecodePrivateKey secp ptext) in
  result (record i) = Returns tt
  /\ forall ev, In ev (trace (record i)) ->
       (exists e, In e (transforms privKey)
                  /\ ev = EvComputePublicKey (candidate partial e))
       \/ (exists e, In e (transforms privKey)
                     /\ candidate_address secp compressed t partial e = addr
                     /\ In ev (emission os outputFile t addr
                                 (GetPrivAddress secp compressed
                                    (candidate partial e))
                                 (GetBase16 lib (candidate partial e))))
       \/ (ev = msg_unable i addr ptext
           /\ forall e, In e (transforms privKey) ->
                candidate_address secp compressed t partial e <> addr).
Proof.
  intros Hi Hk Hn Ht Hn1 Hmode partial.
  rewrite (record_trials i addr ptext t Hi Hk Hn Ht Hn1 Hmode).
  split; [reflexivity|]. cbn [trace fst]. fold partial.
  intros ev Hev. apply in_app_or in Hev. destruct Hev as [Hev|Hev].
  - apply in_flat_map in Hev. destruct Hev as [e [He Hev]].
    unfold attempt in Hev. destruct Hev as [<-|Hev].
    + left. exists e. split; [exact He | reflexivity].
    + right; left. destruct (hit secp compressed t addr partial e) eqn:Hh;
        [|contradiction].
      exists e. split; [exact He|]. split; [|exact Hev].
      unfold hit in Hh. apply String.eqb_eq. exact Hh.
  - right; right.
    destruct (existsb (hit secp compressed t addr partial) (transforms privKey))
      eqn:Hex; [contradiction|].
    destruct Hev as [<-|[]]. split; [reflexivity|].
    intros e He Heq.
    assert (Hh : hit secp compressed t addr partial e = true)
      by (unfold hit; apply String.eqb_eq; exact Heq).
    assert (Hex' : existsb (hit secp compressed t addr partial)
                     (transforms privKey) = true)
      by (apply existsb_exists; exists e; split; assumption).
    rewrite Hex in Hex'. discriminate Hex'.
Qed.

(** X7.  A record none of whose six candidates encodes to the target address is
    reported and left: the six candidates are computed, the diagnostic
    names the line index, the address and the partial key text, nothing
    goes to the sink, and the run goes on with the next record. *)
Theorem unresolved_record_reported (fuel : nat) (i : Z) (addr ptext : string)
    (t : AddrType) :
  fits_int lines -> 0 <= i -> 0 <= privKey ->
  nth_error lines (Z.to_nat i) = Some ("PubAddress: " ++ addr)%string ->
  addrType_of (data0 addr) = Some t ->
  nth_error lines (Z.to_nat (i + 1)) = Some ("PartialPriv: " ++ ptext)%string ->
  snd (DecodePrivateKey secp ptext) = compressed ->
  let partial := fst (DecodePrivateKey secp ptext) in
  (forall j, (1 <= j <= 6)%nat ->
     candidate_address secp compressed t partial (T j privKey) <> addr) ->
  record i
  = (map (fun e => EvComputePublicKey (candidate partial e))
       (transforms privKey) ++ [msg_unable i addr ptext],
     Returns tt)
  /\ nb_emissions (trace (record i)) = 0%nat
  /\ loop (S fuel) i
     = (trace (record i) ++ trace (loop fuel (i + 2)),
        result (loop fuel (i + 2))).
Proof.
  intros Hfit Hi Hk Hn Ht Hn1 Hmode partial Hno.
  assert (Hmiss : forall e, In e (transforms privKey) ->
                    hit secp compressed t addr partial e = false).
  { intros e He. unfold transforms in He. apply in_map_iff in He.
    destruct He as [j [<- Hj]]. apply in_seq in Hj.
    unfold hit. apply String.eqb_neq. apply Hno. lia. }
  assert (Hex : existsb (hit secp compressed t addr partial)
                  (transforms privKey) = false).
  { destruct (existsb _ _) eqn:E; [|reflexivity].
    apply existsb_exists in E. destruct E as [e [He Hh]].
    rewrite (Hmiss e He) in Hh. discriminate Hh. }
  assert (Hfm : flat_map (attempt os lib secp outputFile compressed t addr partial)
                  (transforms privKey)
                = map (fun e => EvComputePublicKey (candidate partial e))
                    (transforms privKey)).
  { revert Hmiss. generalize (transforms privKey).
    induction l as [|e l IH]; intros Hm; [reflexivity|].
    cbn [flat_map map]. unfold attempt at 1.
    rewrite (Hm e (or_introl eq_refl)). cbn [app]. f_equal.
    apply IH. intros e' He'. apply Hm. right. exact He'. }
  assert (Hr : record i
               = (map (fun e => EvComputePublicKey (candidate partial e))
                    (transforms privKey) ++ [msg_unable i addr ptext],
                  Returns tt)).
  { rewrite (record_trials i addr ptext t Hi Hk Hn Ht Hn1 Hmode).
    fold partial. rewrite Hex, Hfm. reflexivity. }
  split; [exact Hr|]. split.
  - rewrite Hr. cbn [trace fst]. rewrite nb_emissions_app.
    unfold nb_emissions. rewrite <- Hfm.
    change (List.length (filter is_sink_header (flat_map ?f ?l)))
      with (nb_emissions (flat_map f l)).
    rewrite attempts_count.
    assert (Hf : filter (hit secp compressed t addr partial) (transforms privKey)
                 = []).
    { revert Hmiss. generalize (transforms privKey).
      induction l as [|e l IH]; intros Hm; [reflexivity|].
      cbn [filter]. rewrite (Hm e (or_introl eq_refl)).
      apply IH. intros e' He'. apply Hm. right. exact He'. }
    rewrite Hf. reflexivity.
  - apply loop_after_return; [exact Hfit | | rewrite Hr; reflexivity].
    split; [exact Hi | exact (nth_error_in_range _ _ _ Hi Hn)].
Qed.

End Passes.

(** ** reconstructAdd: how runs end, and what they leave open *)

Lemma trace_bind {A B} (m : M A) (k : A -> M B) :
  trace (bind m k)
  = trace m ++ match result m with
               | Returns a => trace (k a)
               | _ => []
               end.
Proof.
  destruct m as [t o]. destruct o; cbn [bind trace result fst snd];
    rewrite ?app_nil_r; try reflexivity.
  destruct (k a); reflexivity.
Qed.

Lemma result_bind {A B} (m : M A) (k : A -> M B) :
  result (bind m k)
  = match result m with
    | Returns a => result (k a)
    | Exits c => Exits c
    | BadIndex i => BadIndex i
    | Throws => Throws
    | OutOfFuel => OutOfFuel
    end.
Proof.
  destruct m as [t o]. destruct o; cbn [bind trace result fst snd];
    try reflexivity.
  destruct (k a); reflexivity.
Qed.

Lemma open_handles_app (t1 t2 : list event) :
  open_handles (t1 ++ t2) = open_handles t1 + open_handles t2.
Proof.
  induction t1 as [|e t1 IH]; [reflexivity|].
  destruct e as [| ? ? [|] | | | | | |]; cbn [app open_handles]; rewrite IH; lia.
Qed.

Lemma emission_handles (os : OS) (outputFile : string) (t : AddrType)
    (addr pAddr pAddrHex : string) :
  open_handles (emission os outputFile t addr pAddr pAddrHex) = 0.
Proof.
  unfold emission, sink_record, cannot_open.
  destruct outputFile; [reflexivity|].
  destruct (can_append os _); reflexivity.
Qed.

Section Ends.

Variable os : OS.
Variable lib : Lib.
Variable secp : Secp256K1.
Variable outputFile : string.
Variables lambda lambda2 privKey : Int.
Variable compressed : bool.
Variable lines : list string.

Local Abbreviation record :=
  (reconstruct_record os lib secp outputFile lambda lambda2 privKey compressed
     lines).
Local Abbreviation loop :=
  (reconstruct_loop os lib secp outputFile lambda lambda2 privKey compressed
     lines).

Lemma attempts_handles (t : AddrType) (addr : string) (partial : Int)
    (es : list Int) :
  open_handles
    (flat_map (attempt os lib secp outputFile compressed t addr partial) es) = 0.
Proof.
  induction es as [|e es IH]; [reflexivity|].
  cbn [flat_map]. rewrite open_handles_app, IH. unfold attempt.
  cbn [open_handles]. destruct (hit _ _ _ _ _ e);
    [rewrite emission_handles|]; reflexivity.
Qed.

Lemma record_handles (i : Z) : open_handles (trace (record i)) = 0.
Proof.
  destruct (Z.lt_ge_cases i 0) as [Hneg|Hi].
  { unfold reconstruct_record, vector_at.
    destruct (Z.ltb_spec i 0); [reflexivity | lia]. }
  destruct (nth_error lines (Z.to_nat i)) as [l0|] eqn:Hn.
  2:{ unfold reconstruct_record, vector_at. rewrite Hn.
      destruct (i <? 0); reflexivity. }
  destruct (String.prefix "PubAddress: " l0) eqn:Hp.
  2:{ now rewrite (record_bad_address_line _ _ _ _ _ _ _ _ _ _ _ Hi Hn Hp). }
  destruct (prefix_split _ _ Hp) as [addr ->].
  destruct (addrType_of (data0 addr)) as [t|] eqn:Ht.
  2:{ now rewrite (record_unsupported _ _ _ _ _ _ _ _ _ _ _ Hi Hn Ht). }
  destruct (nth_error lines (Z.to_nat (i + 1))) as [l1|] eqn:Hn1.
  2:{ assert (Hlen : Z.of_nat (List.length lines) <= i + 1).
      { apply nth_error_None in Hn1. lia. }
      now rewrite (record_no_second_line _ _ _ _ _ _ _ _ _ _ _ _ Hi Hn Ht Hlen). }
  destruct (String.prefix "PartialPriv: " l1) eqn:Hp1.
  2:{ now rewrite (record_bad_partial_line _ _ _ _ _ _ _ _ _ _ _ _ _
                     Hi Hn Ht Hn1 Hp1). }
  destruct (prefix_split _ _ Hp1) as [ptext ->].
  destruct (Z.lt_ge_cases privKey 0) as [Hk|Hk].
  - now rewrite (record_base_key_negative _ _ _ _ _ _ _ _ _ _ _ _ _
                   Hi Hn Ht Hn1 Hk).
  - rewrite (record_decoded _ _ _ _ _ _ _ _ _ _ _ _ _ Hi Hn Ht Hn1 Hk).
    destruct (negb _); [reflexivity|].
    rewrite reconstruct_key_attempts. cbn [trace fst].
    rewrite open_handles_app, attempts_handles.
    destruct (existsb _ _); reflexivity.
Qed.

Lemma loop_handles (fuel : nat) (i : Z) :
  open_handles (trace (loop fuel i)) = 0.
Proof.
  revert i. induction fuel as [|fuel IH]; intros i; cbn [reconstruct_loop].
  - destruct (_ <? _); reflexivity.
  - destruct (_ <? _); [|reflexivity].
    rewrite trace_bind, open_handles_app, record_handles.
    destruct (result (record i)); try reflexivity. apply IH.
Qed.

(** From an even index on, with enough fuel, the loop returns, or leaves
    with status -1, or reads the line after the last one; the latter only
    when the number of lines is odd. *)
Lemma loop_outcomes (fuel : nat) (i : Z) :
  fits_int lines -> 0 <= i -> Z.even i = true ->
  Z.of_nat (List.length lines) - i <= Z.of_nat fuel ->
  result (loop fuel i) = Returns tt
  \/ result (loop fuel i) = Exits (-1)
  \/ (result (loop fuel i) = BadIndex (Z.of_nat (List.length lines))
      /\ Nat.odd (List.length lines) = true).
Proof.
  intros Hfit. revert i. induction fuel as [|fuel IH]; intros i Hi Hie Hf.
  - left. rewrite (loop_done _ _ _ _ _ _ _ _ _ _ _ Hfit) by lia. reflexivity.
  - destruct (Z.lt_ge_cases i (Z.of_nat (List.length lines))) as [Hlt|Hge].
    2:{ left. now rewrite (loop_done _ _ _ _ _ _ _ _ _ _ _ Hfit Hge). }
    destruct (nth_error lines (Z.to_nat i)) as [l0|] eqn:Hn.
    2:{ apply nth_error_None in Hn. lia. }
    assert (Hr : 0 <= i < Z.of_nat (List.length lines)) by lia.
    destruct (record_cases os lib secp outputFile lambda lambda2 privKey
                compressed lines i l0 Hi Hn) as [H|[H|[H [Hlen _]]]].
    + rewrite (loop_after_return _ _ _ _ _ _ _ _ _ fuel i (trace (record i))
                 Hfit Hr).
      * cbn [result snd]. apply IH; [lia | | lia].
        rewrite Z.even_add, Hie. reflexivity.
      * rewrite <- H. apply surjective_M.
    + right; left.
      rewrite (loop_after_stop _ _ _ _ _ _ _ _ _ fuel i (trace (record i))
                 (Exits (-1)) Hfit Hr).
      * reflexivity.
      * rewrite <- H. apply surjective_M.
      * discriminate.
    + right; right.
      assert (Hodd : Z.of_nat (List.length lines) = i + 1) by lia.
      split.
      * rewrite (loop_after_stop _ _ _ _ _ _ _ _ _ fuel i [] (BadIndex (i + 1))
                   Hfit Hr H) by discriminate.
        cbn [result snd]. now rewrite Hodd.
      * apply Z.even_spec in Hie. destruct Hie as [j Hj].
        apply Nat.odd_spec. exists (Z.to_nat j). lia.
Qed.

End Ends.

Section RunEnds.

Variable os : OS.
Variable lib : Lib.
Variable secp : Secp256K1.

Lemma parseFile_missing (fileName : string) (lines : list string) :
  read_file os fileName = None ->
  parseFile os fileName lines
  = ([EvFopen fileName "rb" false;
      EvPrintf (CLR_RED ++ "Error: Cannot open " ++ fileName ++ " "
                ++ strerror os fileName ++ CLR_RESET ++ LF)%string],
     Exits (-1)).
Proof. intros Hr. unfold parseFile. rewrite Hr. reflexivity. Qed.

Lemma parseFile_handles (fileName : string) (lines : list string) :
  open_handles (trace (parseFile os fileName lines)) = 0.
Proof.
  destruct (read_file os fileName) as [content|] eqn:Hr.
  2:{ now rewrite (parseFile_missing _ _ Hr). }
  unfold parseFile, fopen, fclose, emit. rewrite Hr.
  rewrite !bind_Returns. cbv zeta. cbn [trace fst].
  rewrite (surjective_M (parseFile_loop _ _ _ _ _ _)), parseFile_loop_result.
  rewrite bind_Returns. cbn [trace fst app open_handles].
  rewrite open_handles_app, parseFile_loop_handles.
  destruct (100000 <? _); unfold printf, emit, ret;
    rewrite ?bind_Returns; reflexivity.
Qed.

Lemma reconstructAdd_parse_stops (fileName outputFile privAddr : string)
    (pt : list event) (status : Z) :
  0 <= fst (DecodePrivateKey secp privAddr) ->
  parseFile os fileName [] = (pt, Exits status) ->
  reconstructAdd os lib secp fileName outputFile privAddr = (pt, Exits status).
Proof.
  intros Hk Hp. unfold reconstructAdd. cbv zeta.
  assert (Hneg : IsNegative (fst (DecodePrivateKey secp privAddr)) = false)
    by (unfold IsNegative; apply Z.ltb_ge; exact Hk).
  rewrite Hneg, bind_ret_l, Hp. reflexivity.
Qed.

(** X5.  With an accepted base key and a record file that cannot be opened, the
    run prints the "Cannot open" error with the system's reason and leaves
    with status -1: no record is processed and nothing reaches the sink. *)
Theorem unreadable_record_file_fatal (fileName outputFile privAddr : string) :
  0 <= fst (DecodePrivateKey secp privAddr) ->
  read_file os fileName = None ->
  reconstructAdd os lib secp fileName outputFile privAddr
  = ([EvFopen fileName "rb" false;
      EvPrintf (CLR_RED ++ "Error: Cannot open " ++ fileName ++ " "
                ++ strerror os fileName ++ CLR_RESET ++ LF)%string],
     Exits (-1))
  /\ computed_keys
       (trace (reconstructAdd os lib secp fileName outputFile privAddr)) = []
  /\ nb_emissions
       (trace (reconstructAdd os lib secp fileName outputFile privAddr)) = 0%nat.
Proof.
  intros Hk Hr.
  pose proof (reconstructAdd_parse_stops fileName outputFile privAddr _ _ Hk
                (parseFile_missing fileName [] Hr)) as H.
  split; [exact H|]. rewrite H. split; reflexivity.
Qed.

(** X11.  A run of [reconstructAdd] ends in one of three ways: it returns; it
    leaves with status -1 (the only status it uses); or, only when the file
    holds an odd number of lines, it reads the line after the last one.
    The [substr] calls never throw, and the loop always comes to an end. *)
Theorem run_outcomes (fileName outputFile privAddr : string) :
  (forall content,
      read_file os fileName = Some content -> fits_int (kept_lines content)) ->
  let r := result (reconstructAdd os lib secp fileName outputFile privAddr) in
  r = Returns tt
  \/ r = Exits (-1)
  \/ (exists content,
         read_file os fileName = Some content
         /\ r = BadIndex (Z.of_nat (List.length (kept_lines content)))
         /\ Nat.odd (List.length (kept_lines content)) = true).
Proof.
  intros Hfit r. subst r.
  destruct (Z.lt_ge_cases (fst (DecodePrivateKey secp privAddr)) 0) as [Hk|Hk].
  { right; left. now rewrite (reconstructAdd_bad_key _ _ _ _ _ _ Hk). }
  destruct (read_file os fileName) as [content|] eqn:Hr.
  2:{ right; left.
      now rewrite (reconstructAdd_parse_stops fileName outputFile privAddr _ _ Hk
                     (parseFile_missing fileName [] Hr)). }
  assert (Hp : parseFile os fileName []
               = (trace (parseFile os fileName []), Returns (kept_lines content))).
  { rewrite (surjective_M (parseFile os fileName [])) at 1.
    now rewrite (parseFile_readable _ _ _ _ Hr). }
  rewrite (reconstructAdd_run _ _ _ _ _ _ _ _ Hk Hp). cbn [result snd].
  destruct (loop_outcomes os lib secp outputFile lambda_secp256k1
              lambda2_secp256k1 (fst (DecodePrivateKey secp privAddr))
              (snd (DecodePrivateKey secp privAddr)) (kept_lines content)
              (List.length (kept_lines content)) 0 (Hfit content eq_refl))
    as [H|[H|[H Hodd]]]; try lia; try reflexivity.
  - now left.
  - now (right; left).
  - right; right. exists content. now repeat split.
Qed.

End RunEnds.

Section Skips.

Variable os : OS.
Variable lib : Lib.
Variable secp : Secp256K1.
Variable outputFile : string.
Variables lambda lambda2 privKey : Int.
Variable compressed : bool.
Variable lines : list string.

Local Abbreviation record :=
  (reconstruct_record os lib secp outputFile lambda lambda2 privKey compressed
     lines).
Local Abbreviation loop :=
  (reconstruct_loop os lib secp outputFile lambda lambda2 privKey compressed
     lines).

(** X8.  A record whose partial key comes with a compression flag other than
    the base key's is skipped, whatever scalar it decodes to: the pass
    prints the warning and nothing else (no candidate is computed, nothing
    goes to the sink), and the run goes on with the next record. *)
Theorem wrong_compression_mode_skipped (fuel : nat) (i : Z)
    (addr ptext : string) (t : AddrType) :
  fits_int lines -> 0 <= i -> 0 <= privKey ->
  nth_error lines (Z.to_nat i) = Some ("PubAddress: " ++ addr)%string ->
  addrType_of (data0 addr) = Some t ->
  nth_error lines (Z.to_nat (i + 1)) = Some ("PartialPriv: " ++ ptext)%string ->
  snd (DecodePrivateKey secp ptext) <> compressed ->
  record i = ([msg_wrong_mode i], Returns tt)
  /\ computed_keys (trace (record i)) = []
  /\ nb_emissions (trace (record i)) = 0%nat
  /\ loop (S fuel) i
     = (msg_wrong_mode i :: trace (loop fuel (i + 2)),
        result (loop fuel (i + 2))).
Proof.
  intros Hfit Hi Hk Hn Ht Hn1 Hmode.
  assert (Hr : record i = ([msg_wrong_mode i], Returns tt)).
  { rewrite (record_decoded _ _ _ _ _ _ _ _ _ _ _ _ _ Hi Hn Ht Hn1 Hk).
    destruct (Bool.eqb_spec (snd (DecodePrivateKey secp ptext)) compressed)
      as [E|E]; [contradiction | reflexivity]. }
  split; [exact Hr|]. rewrite Hr. split; [reflexivity|]. split; [reflexivity|].
  change (msg_wrong_mode i :: ?l) with ([msg_wrong_mode i] ++ l).
  apply loop_after_return; [exact Hfit | | exact Hr].
  split; [exact Hi | exact (nth_error_in_range _ _ _ Hi Hn)].
Qed.

End Skips.

(** ** generateKeyPair: both compression modes *)

(** X13.  Asking for both compression modes with a seed of at least 8 characters
    is refused with status -1 and without any derivation; in paranoiac
    mode the random source has been read by then, the mode being tested
    after the seed is extended. *)
Theorem generateKeyPair_both_modes (lib : Lib) (secp : Secp256K1)
    (getSeed : Timer) (seed : string) (paranoiacSeed : bool) :
  (8 <= String.length seed)%nat ->
  generateKeyPair lib secp getSeed seed SEARCH_BOTH paranoiacSeed
  = ((if paranoiacSeed then [EvGetSeed 32] else [])
     ++ [EvPrintf (CLR_RED
           ++ "Error: Use compressed or uncompressed to generate a key pair"
           ++ CLR_RESET ++ LF)%string],
     Exits (-1))
  /\ existsb is_key_operation
       (trace (generateKeyPair lib secp getSeed seed SEARCH_BOTH paranoiacSeed))
     = false.
Proof.
  intros Hlen.
  assert (Hl : (String.length seed <? 8)%nat = false) by (apply Nat.ltb_ge; lia).
  unfold generateKeyPair. rewrite Hl.
  destruct paranoiacSeed; split; reflexivity.
Qed.

(** ** The six transforms are distinct *)

Lemma n_pos : 0 < n_secp256k1.
Proof. reflexivity. Qed.

Lemma eqm_of_multiple (a b c : Z) :
  a - b = n_secp256k1 * c -> a mod n_secp256k1 = b mod n_secp256k1.
Proof.
  intros H. replace a with (b + c * n_secp256k1) by lia.
  apply Z.mod_add. pose proof n_pos. lia.
Qed.

Lemma T_coeff (j : nat) (k : Z) :
  (1 <= j <= 6)%nat ->
  T j k mod n_secp256k1 = (k * coeff j) mod n_secp256k1.
Proof.
  intros Hj. pose proof n_pos as Hn.
  destruct j as [|[|[|[|[|[|[|j]]]]]]]; try lia; cbn [T coeff].
  - f_equal. lia.
  - apply Z.mod_mod. lia.
  - apply Z.mod_mod. lia.
  - apply (eqm_of_multiple _ _ 1). lia.
  - pose proof (Z.div_mod (k * lambda_secp256k1) n_secp256k1 ltac:(lia)) as H.
    apply (eqm_of_multiple _ _ (1 + k * lambda_secp256k1 / n_secp256k1)).
    set (x := k * lambda_secp256k1) in *.
    replace (k * - lambda_secp256k1) with (- x) by (subst x; ring).
    rewrite Z.mul_add_distr_l. lia.
  - pose proof (Z.div_mod (k * lambda2_secp256k1) n_secp256k1 ltac:(lia)) as H.
    apply (eqm_of_multiple _ _ (1 + k * lambda2_secp256k1 / n_secp256k1)).
    set (x := k * lambda2_secp256k1) in *.
    replace (k * - lambda2_secp256k1) with (- x) by (subst x; ring).
    rewrite Z.mul_add_distr_l. lia.
Qed.

Lemma coeff_cancel (k a b : Z) :
  Z.gcd k n_secp256k1 = 1 ->
  (k * a) mod n_secp256k1 = (k * b) mod n_secp256k1 ->
  (a - b) mod n_secp256k1 = 0.
Proof.
  intros Hg He. pose proof n_pos as Hn.
  apply Z.mod_divide; [lia|].
  apply (Z.gauss _ k); [|now rewrite Z.gcd_comm].
  apply Z.mod_divide; [lia|].
  rewrite Z.mul_sub_distr_l, Zminus_mod, He, Z.sub_diag. reflexivity.
Qed.

Lemma coeff_distinct (j1 j2 : nat) :
  (1 <= j1 <= 6)%nat -> (1 <= j2 <= 6)%nat -> j1 <> j2 ->
  (coeff j1 - coeff j2) mod n_secp256k1 <> 0.
Proof.
  intros H1 H2 Hne.
  destruct j1 as [|[|[|[|[|[|[|j1]]]]]]]; try lia;
    destruct j2 as [|[|[|[|[|[|[|j2]]]]]]]; try lia;
    vm_compute; discriminate.
Qed.

(** For a base key coprime to the group order, the six offsets are
    pairwise different modulo the order. *)
Lemma transforms_distinct (k : Z) (j1 j2 : nat) :
  Z.gcd k n_secp256k1 = 1 ->
  (1 <= j1 <= 6)%nat -> (1 <= j2 <= 6)%nat ->
  T j1 k mod n_secp256k1 = T j2 k mod n_secp256k1 -> j1 = j2.
Proof.
  intros Hg H1 H2 He.
  destruct (Nat.eq_dec j1 j2) as [E|Hne]; [exact E|].
  exfalso. rewrite !T_coeff in He by assumption.
  exact (coeff_distinct j1 j2 H1 H2 Hne (coeff_cancel k _ _ Hg He)).
Qed.

Lemma candidate_eqm (partial a b : Z) :
  candidate partial a = candidate partial b ->
  a mod n_secp256k1 = b mod n_secp256k1.
Proof.
  unfold candidate. intros H. pose proof n_pos as Hn.
  replace a with ((partial + a) - partial) by lia.
  replace b with ((partial + b) - partial) by lia.
  rewrite (Zminus_mod (partial + a)), (Zminus_mod (partial + b)), H.
  reflexivity.
Qed.

Lemma filter_at_most_one {A B} (f : A -> B) (P : A -> bool) (l : list A) :
  NoDup (map f l) ->
  (forall x y, In x l -> In y l -> P x = true -> P y = true -> f x = f y) ->
  (List.length (filter P l) <= 1)%nat.
Proof.
  induction l as [|a l IH]; intros Hnd Hsame; [cbn; lia|].
  cbn [map] in Hnd. inversion Hnd as [|? ? Hnotin Hnd']; subst.
  cbn [filter]. destruct (P a) eqn:Ha.
  - assert (Hnone : filter P l = []).
    { destruct (filter P l) as [|y ys] eqn:Hf; [reflexivity|].
      exfalso. assert (Hy : In y (filter P l)) by (rewrite Hf; now left).
      apply filter_In in Hy. destruct Hy as [Hy Hpy].
      apply Hnotin. rewrite (Hsame a y (or_introl eq_refl) (or_intror Hy) Ha Hpy).
      now apply in_map. }
    rewrite Hnone. cbn. lia.
  - apply IH; [exact Hnd'|].
    intros x y Hx Hy. apply Hsame; now right.
Qed.

Section AtMostOne.

Variable os : OS.
Variable lib : Lib.
Variable secp : Secp256K1.
Variable outputFile : string.
Variable privKey : Int.
Variable compressed : bool.
Variable lines : list string.

Lemma candidates_NoDup (partial : Int) :
  Z.gcd privKey n_secp256k1 = 1 ->
  NoDup (map (candidate partial) (transforms privKey)).
Proof.
  intros Hg. unfold transforms. rewrite map_map.
  apply NoDup_map_NoDup_ForallPairs; [|apply seq_NoDup].
  intros j1 j2 H1 H2 He. apply in_seq in H1. apply in_seq in H2.
  apply (transforms_distinct privKey j1 j2 Hg); [lia | lia |].
  exact (candidate_eqm _ _ _ He).
Qed.

(** X9.  When the base key is coprime to the group order, the six
    candidates of a record are pairwise different.  If moreover no two
    different candidates among these six encode to the target address,
    at most one of them matches: the sink receives at most one record for
    the input record. *)
Theorem at_most_one_emission (i : Z) (addr ptext : string) (t : AddrType) :
  0 <= i -> 0 <= privKey ->
  nth_error lines (Z.to_nat i) = Some ("PubAddress: " ++ addr)%string ->
  addrType_of (data0 addr) = Some t ->
  nth_error lines (Z.to_nat (i + 1)) = Some ("PartialPriv: " ++ ptext)%string ->
  snd (DecodePrivateKey secp ptext) = compressed ->
  Z.gcd privKey n_secp256k1 = 1 ->
  (forall e1 e2,
      In e1 (transforms privKey) -> In e2 (transforms privKey) ->
      candidate_address secp compressed t (fst (DecodePrivateKey secp ptext)) e1
      = addr ->
      candidate_address secp compressed t (fst (DecodePrivateKey secp ptext)) e2
      = addr ->
      candidate (fst (DecodePrivateKey secp ptext)) e1
      = candidate (fst (DecodePrivateKey secp ptext)) e2) ->
  NoDup (computed_keys
           (trace (reconstruct_record os lib secp outputFile lambda_secp256k1
                     lambda2_secp256k1 privKey compressed lines i)))
  /\ (nb_emissions
        (trace (reconstruct_record os lib secp outputFile lambda_secp256k1
                  lambda2_secp256k1 privKey compressed lines i)) <= 1)%nat.
Proof.
  intros Hi Hk Hn Ht Hn1 Hmode Hg Hsame.
  rewrite (record_trials os lib secp outputFile privKey compressed lines
             i addr ptext t Hi Hk Hn Ht Hn1 Hmode).
  cbn [trace fst].
  set (partial := fst (DecodePrivateKey secp ptext)) in *.
  rewrite computed_keys_app, attempts_keys, nb_emissions_app, attempts_count.
  split.
  - destruct (existsb _ _); cbn [computed_keys msg_unable];
      rewrite app_nil_r; apply candidates_NoDup; exact Hg.
  - assert (Hone : (List.length
                      (filter (hit secp compressed t addr partial)
                         (transforms privKey)) <= 1)%nat).
    { apply (filter_at_most_one (candidate partial)).
      - apply candidates_NoDup. exact Hg.
      - intros x y Hx Hy Hhx Hhy. unfold hit in Hhx, Hhy.
        apply String.eqb_eq in Hhx. apply String.eqb_eq in Hhy.
        exact (Hsame x y Hx Hy Hhx Hhy). }
    destruct (existsb _ _).
    + change (nb_emissions []) with 0%nat. lia.
    + change (nb_emissions [msg_unable i addr ptext]) with 0%nat. lia.
Qed.

End AtMostOne.

(** ** getInts: the index loop walks the fields *)

Lemma string_length_app (a b : string) :
  String.length (a ++ b) = (String.length a + String.length b)%nat.
Proof. induction a as [|c a IH]; [reflexivity|]. cbn. now rewrite IH. Qed.

Lemma string_app_nil_r (a : string) : (a ++ EmptyString)%string = a.
Proof. induction a as [|c a IH]; [reflexivity|]. cbn. now rewrite IH. Qed.

Lemma find_from_app (sep : ascii) (pre suf : string) :
  find_from sep (String.length pre) (pre ++ suf)
  = option_map (Nat.add (String.length pre)) (find_from sep 0 suf).
Proof.
  induction pre as [|c pre IH].
  - cbn [String.length String.append]. destruct (find_from sep 0 suf); reflexivity.
  - cbn [String.length String.append find_from]. rewrite IH.
    destruct (find_from sep 0 suf); reflexivity.
Qed.

Lemma find_first (sep : ascii) (suf : string) (k : nat) :
  find_from sep 0 suf = Some k ->
  exists a b,
    suf = (a ++ String sep b)%string /\ String.length a = k
    /\ fields sep suf = a :: fields sep b
    /\ occurrences sep suf = S (occurrences sep b).
Proof.
  revert k. induction suf as [|c suf IH]; intros k H; [discriminate H|].
  cbn [find_from] in H. cbn [fields occurrences].
  destruct (Ascii.eqb_spec c sep) as [->|Hne].
  - injection H as <-. exists EmptyString, suf. repeat split.
  - destruct (find_from sep 0 suf) as [k'|]; [|discriminate H].
    injection H as <-. destruct (IH k' eq_refl) as [a [b [Hs [Hl [Hf Ho]]]]].
    exists (String c a), b. rewrite Hf. repeat split.
    + cbn. now rewrite Hs.
    + cbn. now rewrite Hl.
    + exact Ho.
Qed.

Lemma find_none (sep : ascii) (suf : string) :
  find_from sep 0 suf = None ->
  fields sep suf = [suf] /\ occurrences sep suf = O.
Proof.
  induction suf as [|c suf IH]; intros H; [split; reflexivity|].
  cbn [find_from] in H. cbn [fields occurrences].
  destruct (Ascii.eqb c sep); [discriminate H|].
  destruct (find_from sep 0 suf); [discriminate H|].
  destruct (IH eq_refl) as [Hf Ho]. rewrite Hf, Ho. split; reflexivity.
Qed.

Lemma fields_length (sep : ascii) (text : string) :
  List.length (fields sep text) = S (occurrences sep text).
Proof.
  induction text as [|c text IH]; [reflexivity|].
  cbn [fields occurrences]. destruct (Ascii.eqb c sep).
  - cbn. now rewrite IH.
  - destruct (fields sep text); [discriminate IH | exact IH].
Qed.

Lemma occurrences_le_length (sep : ascii) (text : string) :
  (occurrences sep text <= String.length text)%nat.
Proof.
  induction text as [|c text IH]; [cbn; lia|].
  cbn [occurrences String.length]. destruct (Ascii.eqb c sep); lia.
Qed.

Lemma getInts_loop_fields (name : string) (sep : ascii) (fuel : nat) :
  forall (pre suf : string) (tokens : list Z),
    (occurrences sep suf <= fuel)%nat ->
    getInts_loop fuel name (pre ++ suf) sep (String.length pre) tokens
    = convert name (fields sep suf) tokens.
Proof.
  induction fuel as [|fuel IH]; intros pre suf tokens Hf.
  - destruct (find_from sep 0 suf) as [k|] eqn:Hk.
    + destruct (find_first _ _ _ Hk) as [a [b [_ [_ [_ Ho]]]]]. lia.
    + cbn [getInts_loop]. rewrite find_from_app, Hk. cbn [option_map].
      unfold substr_from. rewrite substr_app, bind_ret_l.
      rewrite (proj1 (find_none _ _ Hk)). cbn [convert].
      destruct (stoi_in_try name suf) as [t [v| | | |]]; reflexivity.
  - cbn [getInts_loop]. rewrite find_from_app.
    destruct (find_from sep 0 suf) as [k|] eqn:Hk; cbn [option_map].
    + destruct (find_first _ _ _ Hk) as [a [b [-> [Hl [Hfs Ho]]]]].
      rewrite Hfs. cbn [convert]. unfold substr_len. rewrite substr_app.
      rewrite bind_ret_l.
      replace (String.length pre + k - String.length pre)%nat with k by lia.
      rewrite <- Hl, substr0_app.
      destruct (stoi_in_try name a) as [t [v| | | |]] eqn:Hst; try reflexivity.
      rewrite !bind_Returns. f_equal.
      * f_equal. f_equal.
        replace (String.length pre + String.length a + 1)%nat
          with (String.length (pre ++ a ++ String sep EmptyString)).
        2:{ rewrite !string_length_app. cbn. lia. }
        replace (pre ++ a ++ String sep b)%string
          with ((pre ++ a ++ String sep EmptyString) ++ b)%string.
        2:{ rewrite !string_app_assoc. reflexivity. }
        apply IH. lia.
      * f_equal.
        replace (String.length pre + String.length a + 1)%nat
          with (String.length (pre ++ a ++ String sep EmptyString)).
        2:{ rewrite !string_length_app. cbn. lia. }
        replace (pre ++ a ++ String sep b)%string
          with ((pre ++ a ++ String sep EmptyString) ++ b)%string.
        2:{ rewrite !string_app_assoc. reflexivity. }
        apply IH. lia.
    + unfold substr_from. rewrite substr_app, bind_ret_l.
      rewrite (proj1 (find_none _ _ Hk)). cbn [convert].
      destruct (stoi_in_try name suf) as [t [v| | | |]]; reflexivity.
Qed.

Lemma getInts_fields (name : string) (tokens : list Z) (text : string)
    (sep : ascii) :
  getInts name tokens text sep = convert name (fields sep text) [].
Proof.
  unfold getInts.
  exact (getInts_loop_fields name sep (String.length text) EmptyString text []
           (occurrences_le_length sep text)).
Qed.

Lemma stoi_in_try_value (name p : string) (v : Z) :
  stoi p = stoi_value v -> stoi_in_try name p = ret v.
Proof. intros H. unfold stoi_in_try. now rewrite H. Qed.

Lemma convert_values (name : string) (ps : list string) (vs tokens : list Z) :
  Forall2 (fun p v => stoi p = stoi_value v) ps vs ->
  convert name ps tokens = ([], Returns (tokens ++ vs)).
Proof.
  intros H. revert tokens. induction H as [|p v ps vs Hp _ IH]; intros tokens.
  - cbn. now rewrite app_nil_r.
  - cbn [convert]. rewrite (stoi_in_try_value _ _ _ Hp), bind_ret_l, IH.
    now rewrite <- app_assoc.
Qed.

Lemma convert_stops (name : string) (good : list string) (bad : string)
    (rest : list string) (vs tokens : list Z) :
  Forall2 (fun p v => stoi p = stoi_value v) good vs ->
  convert name (good ++ bad :: rest) tokens
  = match stoi bad with
    | stoi_value v => convert name rest (tokens ++ vs ++ [v])
    | stoi_invalid_argument => ([msg_number_expected name], Exits (-1))
    | stoi_out_of_range => ([], Throws)
    end.
Proof.
  intros H. revert tokens. induction H as [|p v ps vs Hp _ IH]; intros tokens.
  - cbn [app convert]. unfold stoi_in_try.
    destruct (stoi bad); [now rewrite bind_ret_l | reflexivity | reflexivity].
  - cbn [app convert]. rewrite (stoi_in_try_value _ _ _ Hp), bind_ret_l, IH.
    destruct (stoi bad); try reflexivity.
    now rewrite <- !app_assoc.
Qed.

Lemma convert_returns_inv (name : string) (ps : list string)
    (tokens r : list Z) :
  result (convert name ps tokens) = Returns r ->
  Forall (fun p => exists v, stoi p = stoi_value v) ps.
Proof.
  revert tokens. induction ps as [|p ps IH]; intros tokens H; [constructor|].
  cbn [convert] in H. rewrite result_bind in H. unfold stoi_in_try in H.
  destruct (stoi p) as [v| |] eqn:Hp; try discriminate H.
  constructor; [now exists v|]. exact (IH _ H).
Qed.

(** X14.  [getInts] converts the fields of [text] in order.  When every field
    starts with a number that fits an [int], it returns exactly those
    numbers, one per field (one more than there are separators), prints
    nothing, and forgets what [tokens] held before. *)
Theorem getInts_converts_fields (name : string) (tokens : list Z)
    (text : string) (sep : ascii) (vs : list Z) :
  Forall2 (fun p v => stoi p = stoi_value v) (fields sep text) vs ->
  getInts name tokens text sep = ([], Returns vs)
  /\ List.length vs = S (occurrences sep text).
Proof.
  intros H. split.
  - rewrite getInts_fields. exact (convert_values name _ vs [] H).
  - rewrite <- (Forall2_length H). apply fields_length.
Qed.

(** X15.  The first field that does not convert decides how [getInts] fails.  A
    field without a leading number gives the "number expected" diagnostic
    and status -1; a number that does not fit an [int] leaves [getInts] as
    an uncaught exception, without any diagnostic.  Later fields are not
    looked at. *)
Theorem getInts_first_bad_field (name : string) (tokens : list Z)
    (text : string) (sep : ascii) (good : list string) (bad : string)
    (rest : list string) (vs : list Z) :
  fields sep text = good ++ bad :: rest ->
  Forall2 (fun p v => stoi p = stoi_value v) good vs ->
  (forall v, stoi bad <> stoi_value v) ->
  getInts name tokens text sep
  = match stoi bad with
    | stoi_out_of_range => ([], Throws)
    | _ => ([msg_number_expected name], Exits (-1))
    end.
Proof.
  intros Hf Hgood Hbad. rewrite getInts_fields, Hf.
  rewrite (convert_stops name good bad rest vs [] Hgood).
  destruct (stoi bad) as [v| |]; try reflexivity.
  now elim (Hbad v).
Qed.

(** X16.  A text with an empty field (the empty text, a separator at either
    end, two separators in a row) never makes [getInts] return. *)
Theorem getInts_empty_field (name : string) (tokens : list Z) (text : string)
    (sep : ascii) :
  In EmptyString (fields sep text) ->
  forall vs, result (getInts name tokens text sep) <> Returns vs.
Proof.
  intros Hin vs H. rewrite getInts_fields in H.
  pose proof (convert_returns_inv _ _ _ _ H) as Hall.
  rewrite Forall_forall in Hall. destruct (Hall _ Hin) as [v Hv].
  discriminate Hv.
Qed.

(** ** getInt and the decimal texts of integers *)

Lemma digits_value_pos (d : Decimal.uint) :
  forall (p : positive) (rest : string),
    starts_with_digit rest = false ->
    digits_value (Z.pos p) (DecimalString.NilEmpty.string_of_uint d ++ rest)
    = Z.pos (Pos.of_uint_acc d p).
Proof.
  induction d; intros p rest Hr;
    cbn [DecimalString.NilEmpty.string_of_uint String.append digits_value
           Pos.of_uint_acc];
    try (match goal with
         | |- context [is_digit ?c] => change (is_digit c) with true
         end;
         cbv iota;
         match goal with
         | |- digits_value ?a _ = Z.pos (Pos.of_uint_acc _ ?q) =>
             replace a with (Z.pos q)
               by (match goal with
                   | |- context [Z.of_nat (nat_of_ascii ?c)] =>
                       let v := eval vm_compute in (Z.of_nat (nat_of_ascii c)) in
                       change (Z.of_nat (nat_of_ascii c)) with v
                   end; lia)
         end;
         now apply IHd).
  destruct rest as [|c rest]; [reflexivity|].
  cbn [starts_with_digit] in Hr. cbn [digits_value]. now rewrite Hr.
Qed.

Lemma digits_value_zero (d : Decimal.uint) (rest : string) :
  starts_with_digit rest = false ->
  digits_value 0 (DecimalString.NilEmpty.string_of_uint d ++ rest)
  = Z.of_N (Pos.of_uint d).
Proof.
  intros Hr. induction d;
    cbn [DecimalString.NilEmpty.string_of_uint String.append digits_value
           Pos.of_uint];
    try (match goal with
         | |- context [is_digit ?c] => change (is_digit c) with true
         end;
         cbv iota;
         match goal with
         | |- digits_value ?a _ = Z.of_N (N.pos (Pos.of_uint_acc _ ?q)) =>
             replace a with (Z.pos q)
               by (match goal with
                   | |- context [Z.of_nat (nat_of_ascii ?c)] =>
                       let v := eval vm_compute in (Z.of_nat (nat_of_ascii c)) in
                       change (Z.of_nat (nat_of_ascii c)) with v
                   end; lia)
         end;
         now apply digits_value_pos).
  - destruct rest as [|c rest]; [reflexivity|].
    cbn [starts_with_digit] in Hr. cbn [digits_value]. now rewrite Hr.
  - change (is_digit _) with true. cbv iota.
    change (10 * 0 + (Z.of_nat (nat_of_ascii "0") - 48)) with 0.
    exact IHd.
Qed.

Lemma uint_text_shape (d : Decimal.uint) (rest : string) :
  exists c s,
    (DecimalString.NilZero.string_of_uint d ++ rest)%string = String c s
    /\ is_digit c = true.
Proof.
  destruct d; cbn; eexists; eexists; split; reflexivity.
Qed.

Lemma digits_value_uint (d : Decimal.uint) (rest : string) :
  starts_with_digit rest = false ->
  digits_value 0 (DecimalString.NilZero.string_of_uint d ++ rest) = Z.of_uint d.
Proof.
  intros Hr. unfold Z.of_uint.
  destruct d; try (exact (digits_value_zero _ rest Hr)).
  cbn [DecimalString.NilZero.string_of_uint String.append digits_value].
  change (is_digit "0") with true. cbv iota.
  replace (10 * 0 + (Z.of_nat (nat_of_ascii "0") - 48)) with 0 by (cbn; lia).
  destruct rest as [|c rest]; [reflexivity|].
  cbn [starts_with_digit] in Hr. cbn [digits_value]. now rewrite Hr.
Qed.

Lemma skip_space_all (ws s : string) :
  all_space ws = true -> skip_space (ws ++ s) = skip_space s.
Proof.
  induction ws as [|c ws IH]; intros H; [reflexivity|].
  cbn [all_space] in H. apply andb_prop in H. destruct H as [Hc Hw].
  cbn [String.append skip_space]. rewrite Hc. exact (IH Hw).
Qed.

Lemma is_digit_not_space (c : ascii) : is_digit c = true -> isspace c = false.
Proof.
  unfold is_digit, isspace. intros H. apply andb_prop in H. destruct H as [H1 H2].
  apply Nat.leb_le in H1. apply Nat.leb_le in H2.
  destruct (Nat.eqb_spec (nat_of_ascii c) 32); [lia|].
  destruct (Nat.leb_spec (nat_of_ascii c) 13); [lia|].
  now rewrite andb_false_r.
Qed.

Lemma is_digit_not_sign (c : ascii) :
  is_digit c = true -> Ascii.eqb c "-" = false /\ Ascii.eqb c "+" = false.
Proof.
  intros H. split.
  - destruct (Ascii.eqb_spec c "-") as [->|]; [discriminate H | reflexivity].
  - destruct (Ascii.eqb_spec c "+") as [->|]; [discriminate H | reflexivity].
Qed.

Lemma stoi_dec (ws rest : string) (z : Z) :
  all_space ws = true -> starts_with_digit rest = false ->
  stoi (ws ++ dec z ++ rest)
  = if in_int_range z then stoi_value z else stoi_out_of_range.
Proof.
  intros Hws Hr. unfold stoi. rewrite (skip_space_all _ _ Hws).
  unfold dec. pose proof (DecimalZ.of_to z) as Hz.
  destruct (Z.to_int z) as [d|d]; cbn [DecimalString.NilZero.string_of_int].
  - destruct (uint_text_shape d rest) as [c [s [Hs Hc]]].
    pose proof (digits_value_uint d rest Hr) as Hv. rewrite Hs in *.
    destruct (is_digit_not_sign c Hc) as [Hm Hp].
    cbn [skip_space]. rewrite (is_digit_not_space c Hc).
    cbn [data0]. rewrite Hm, Hp. cbn [orb starts_with_digit]. rewrite Hc.
    cbv zeta. rewrite Hv. cbn [Z.of_int] in Hz. rewrite Hz. reflexivity.
  - destruct (uint_text_shape d rest) as [c [s [Hs Hc]]].
    pose proof (digits_value_uint d rest Hr) as Hv.
    cbn [String.append skip_space]. change (isspace "-") with false. cbv iota.
    cbn [data0]. change (Ascii.eqb "-" "-") with true. cbn [orb].
    rewrite Hs in *. cbn [starts_with_digit]. rewrite Hc.
    cbv zeta. rewrite Hv. cbn [Z.of_int] in Hz. rewrite Hz. reflexivity.
Qed.

(** X18.  [getInt] reads the number that starts its argument and ignores what
    follows: after any leading white space, the decimal text of an integer
    followed by anything that does not begin with a digit is read as that
    integer when it fits an [int], silently; when it does not fit,
    [getInt] ends by an uncaught exception, without the diagnostic that a
    missing number gets. *)
Theorem getInt_leading_number (name ws rest : string) (z : Z) :
  all_space ws = true -> starts_with_digit rest = false ->
  getInt name (ws ++ dec z ++ rest)
  = if in_int_range z then ([], Returns z) else ([], Throws).
Proof.
  intros Hws Hr. unfold getInt, stoi_in_try. rewrite (stoi_dec _ _ _ Hws Hr).
  destruct (in_int_range z); reflexivity.
Qed.

Lemma digit_is_not (c sep : ascii) :
  is_digit c = true -> is_digit sep = false -> Ascii.eqb c sep = false.
Proof.
  intros Hc Hs. destruct (Ascii.eqb_spec c sep) as [->|]; [congruence|reflexivity].
Qed.

Lemma uint_text_no_sep (sep : ascii) (d : Decimal.uint) :
  is_digit sep = false ->
  occurrences sep (DecimalString.NilEmpty.string_of_uint d) = O.
Proof.
  intros Hs. induction d;
    cbn [DecimalString.NilEmpty.string_of_uint occurrences];
    try reflexivity;
    match goal with
    | |- context [Ascii.eqb ?c sep] => rewrite (digit_is_not c sep eq_refl Hs)
    end;
    rewrite IHd; reflexivity.
Qed.

Lemma dec_no_sep (sep : ascii) (z : Z) :
  is_digit sep = false -> sep <> "-"%char -> occurrences sep (dec z) = O.
Proof.
  intros Hs Hm. unfold dec.
  assert (Hu : forall d, occurrences sep (DecimalString.NilZero.string_of_uint d)
                         = O).
  { intros d. destruct d; try exact (uint_text_no_sep sep _ Hs).
    cbn [DecimalString.NilZero.string_of_uint occurrences].
    now rewrite (digit_is_not "0" sep eq_refl Hs). }
  destruct (Z.to_int z) as [d|d]; cbn [DecimalString.NilZero.string_of_int].
  - apply Hu.
  - cbn [occurrences]. rewrite Hu.
    destruct (Ascii.eqb_spec "-" sep) as [E|]; [congruence | reflexivity].
Qed.

Lemma fields_no_sep (sep : ascii) (a : string) :
  occurrences sep a = O -> fields sep a = [a].
Proof.
  induction a as [|c a IH]; intros H; [reflexivity|].
  cbn [occurrences] in H. cbn [fields].
  destruct (Ascii.eqb c sep); [discriminate H|]. now rewrite (IH H).
Qed.

Lemma fields_app_sep (sep : ascii) (a b : string) :
  occurrences sep a = O ->
  fields sep (a ++ String sep b) = a :: fields sep b.
Proof.
  induction a as [|c a IH]; intros H.
  - cbn [String.append fields]. now rewrite Ascii.eqb_refl.
  - cbn [occurrences] in H. cbn [String.append fields].
    destruct (Ascii.eqb c sep); [discriminate H|]. now rewrite (IH H).
Qed.

Lemma fields_join (sep : ascii) (ps : list string) :
  ps <> [] -> Forall (fun p => occurrences sep p = O) ps ->
  fields sep (join sep ps) = ps.
Proof.
  induction ps as [|p ps IH]; intros Hne Hall; [congruence|].
  inversion Hall as [|? ? Hp Hps]; subst.
  destruct ps as [|q ps].
  - cbn [join]. now apply fields_no_sep.
  - change (join sep (p :: q :: ps))
      with (p ++ String sep (join sep (q :: ps)))%string.
    rewrite (fields_app_sep _ _ _ Hp), IH; [reflexivity | discriminate | exact Hps].
Qed.

(** X17.  Numbers written out in decimal and joined by the separator are read
    back by [getInts] as they were: for a non-empty list of integers that
    fit an [int] and a separator that is neither a digit nor the minus
    sign, [getInts] returns the list, in order, without any output. *)
Theorem getInts_round_trip (name : string) (tokens zs : list Z) (sep : ascii) :
  zs <> [] -> Forall (fun z => in_int_range z = true) zs ->
  is_digit sep = false -> sep <> "-"%char ->
  getInts name tokens (join sep (map dec zs)) sep = ([], Returns zs).
Proof.
  intros Hne Hrange Hs Hm. rewrite getInts_fields, fields_join.
  - apply (convert_values name (map dec zs) zs []).
    clear Hne. induction Hrange as [|z zs Hz _ IH]; [constructor|].
    cbn [map]. constructor; [|exact IH].
    pose proof (stoi_dec EmptyString EmptyString z eq_refl eq_refl) as H.
    cbn [String.append] in H. rewrite string_app_nil_r, Hz in H. exact H.
  - destruct zs; [congruence | discriminate].
  - apply Forall_forall. intros p Hp. apply in_map_iff in Hp.
    destruct Hp as [z [<- _]]. now apply dec_no_sep.
Qed.

(** ** The six transforms form a group *)

Lemma eqm_mul_l (k a b : Z) :
  a mod n_secp256k1 = b mod n_secp256k1 ->
  (k * a) mod n_secp256k1 = (k * b) mod n_secp256k1.
Proof.
  intros H. rewrite (Zmult_mod k a), (Zmult_mod k b), H. reflexivity.
Qed.

Lemma coeff_product (i j : nat) :
  (1 <= i <= 6)%nat -> (1 <= j <= 6)%nat ->
  exists m, (1 <= m <= 6)%nat
            /\ (coeff j * coeff i) mod n_secp256k1 = coeff m mod n_secp256k1.
Proof.
  intros Hi Hj.
  destruct i as [|[|[|[|[|[|[|i]]]]]]]; try lia;
    destruct j as [|[|[|[|[|[|[|j]]]]]]]; try lia;
    first [ exists 1%nat; split; [lia | vm_compute; reflexivity]
          | exists 2%nat; split; [lia | vm_compute; reflexivity]
          | exists 3%nat; split; [lia | vm_compute; reflexivity]
          | exists 4%nat; split; [lia | vm_compute; reflexivity]
          | exists 5%nat; split; [lia | vm_compute; reflexivity]
          | exists 6%nat; split; [lia | vm_compute; reflexivity] ].
Qed.

(** X10.  Applying one of the six transforms to the result of another gives,
    modulo the group order, one of the six again; the endomorphism
    transform applied three times, and the symmetry applied twice, give
    back the key.  Feeding a reconstructed offset to the transforms again
    yields no new candidate. *)
Theorem transforms_closed (k : Z) :
  (forall i j, (1 <= i <= 6)%nat -> (1 <= j <= 6)%nat ->
     exists m, (1 <= m <= 6)%nat
               /\ T i (T j k) mod n_secp256k1 = T m k mod n_secp256k1)
  /\ T 2 (T 2 (T 2 k)) mod n_secp256k1 = k mod n_secp256k1
  /\ T 2 (T 2 k) mod n_secp256k1 = T 3 k mod n_secp256k1
  /\ T 4 (T 4 k) = k.
Proof.
  assert (Hcomp : forall i j x, (1 <= i <= 6)%nat -> (1 <= j <= 6)%nat ->
            T i (T j x) mod n_secp256k1
            = (x * (coeff j * coeff i)) mod n_secp256k1).
  { intros i j x Hi Hj. rewrite (T_coeff i _ Hi).
    rewrite Zmult_mod, (T_coeff j x Hj), <- Zmult_mod.
    f_equal. ring. }
  split; [|split; [|split]].
  - intros i j Hi Hj. destruct (coeff_product i j Hi Hj) as [m [Hm He]].
    exists m. split; [exact Hm|].
    rewrite (Hcomp i j k Hi Hj), (T_coeff m k Hm). now apply eqm_mul_l.
  - rewrite (Hcomp 2%nat 2%nat (T 2 k)) by lia.
    rewrite Zmult_mod, (T_coeff 2 k) by lia. rewrite <- Zmult_mod.
    replace (k * coeff 2 * (coeff 2 * coeff 2))
      with (k * (coeff 2 * coeff 2 * coeff 2)) by ring.
    replace k with (k * 1) at 2 by ring.
    apply eqm_mul_l. vm_compute. reflexivity.
  - rewrite (Hcomp 2%nat 2%nat k) by lia. rewrite (T_coeff 3 k) by lia.
    apply eqm_mul_l. vm_compute. reflexivity.
  - cbn [T]. lia.
Qed.

(** ** Worked runs for the further properties *)

Local Open Scope string_scope.

Lemma parseFile_appends_trimmed_lines_witness :
  read_file (Sample.input ["a  "; EmptyString; " b"; "c"]) "in.txt"
  = Some (Sample.unlines ["a  "; EmptyString; " b"; "c"])
  /\ result (parseFile (Sample.input ["a  "; EmptyString; " b"; "c"])
               "in.txt" ["old"])
     = Returns ["old"; "a"; " b"; "c"].
Proof.
  split; [reflexivity|].
  rewrite (proj1 (parseFile_appends_trimmed_lines
                    (Sample.input ["a  "; EmptyString; " b"; "c"]) "in.txt"
                    (Sample.unlines ["a  "; EmptyString; " b"; "c"]) ["old"]
                    eq_refl)).
  reflexivity.
Defined.

Lemma parseFile_small_file_silent_witness :
  Z.of_nat (String.length (Sample.unlines Sample.one_record)) <= 100000
  /\ parseFile (Sample.input Sample.one_record) "in.txt" []
     = ([EvFopen "in.txt" "rb" true; EvFclose "in.txt"],
        Returns Sample.one_record).
Proof.
  assert (H : Z.of_nat (String.length (Sample.unlines Sample.one_record))
              <= 100000) by (vm_compute; discriminate).
  split; [exact H|].
  rewrite (parseFile_small_file_silent (Sample.input Sample.one_record)
             "in.txt" (Sample.unlines Sample.one_record) [] eq_refl H).
  reflexivity.
Defined.

Lemma parseFile_reads_rows_witness :
  Forall (fun row => clean_row row = true)
    [("PubAddress: 1u7", String (ascii_of_nat 13) EmptyString);
     ("PartialPriv: 52", "  ")]
  /\ result
       (parseFile
          (Sample.os
             [("in.txt",
               file_text
                 [("PubAddress: 1u7", String (ascii_of_nat 13) EmptyString);
                  ("PartialPriv: 52", "  ")])] [])
          "in.txt" [])
     = Returns ["PubAddress: 1u7"; "PartialPriv: 52"].
Proof.
  assert (H : Forall (fun row => clean_row row = true)
                [("PubAddress: 1u7", String (ascii_of_nat 13) EmptyString);
                 ("PartialPriv: 52", "  ")])
    by (repeat constructor).
  split; [exact H|].
  exact (parseFile_reads_rows
           (Sample.os
              [("in.txt",
                file_text
                  [("PubAddress: 1u7", String (ascii_of_nat 13) EmptyString);
                   ("PartialPriv: 52", "  ")])] [])
           "in.txt"
           [("PubAddress: 1u7", String (ascii_of_nat 13) EmptyString);
            ("PartialPriv: 52", "  ")] [] H eq_refl).
Defined.

Lemma loaded_fields_never_empty_witness :
  In "PubAddress: 1u7" (kept_lines (Sample.unlines Sample.one_record))
  /\ String.prefix "PubAddress: " "PubAddress: 1u7" = true
  /\ exists c addr,
       "PubAddress: 1u7" = "PubAddress: " ++ String c addr
       /\ data0 (String c addr) = c.
Proof.
  assert (H : In "PubAddress: 1u7"
                (kept_lines (Sample.unlines Sample.one_record)))
    by (left; reflexivity).
  split; [exact H|]. split; [reflexivity|].
  exact (proj1 (loaded_fields_never_empty _ _ H) eq_refl).
Defined.

Lemma emissions_are_sound_witness :
  nth_error Sample.one_record (Z.to_nat 0) = Some ("PubAddress: " ++ "1u7")
  /\ nth_error Sample.one_record (Z.to_nat (0 + 1))
     = Some ("PartialPriv: " ++ "52")
  /\ snd (DecodePrivateKey Sample.secp "52") = false
  /\ result (Sample.record5 Sample.one_record 0) = Returns tt.
Proof.
  split; [reflexivity|]. split; [reflexivity|]. split; [reflexivity|].
  exact (proj1 (emissions_are_sound (Sample.input Sample.one_record) Sample.lib
                  Sample.secp EmptyString 5 false Sample.one_record 0 "1u7"
                  "52" P2PKH (Z.le_refl 0) ltac:(lia) eq_refl eq_refl eq_refl
                  eq_refl)).
Defined.

Lemma unresolved_record_reported_witness :
  fits_int ["PubAddress: 1u9"; "PartialPriv: 52"]
  /\ (forall j, (1 <= j <= 6)%nat ->
        candidate_address Sample.secp false P2PKH 2 (T j 5) <> "1u9")
  /\ nb_emissions
       (trace (Sample.record5 ["PubAddress: 1u9"; "PartialPriv: 52"] 0))
     = 0%nat.
Proof.
  assert (Hfit : fits_int ["PubAddress: 1u9"; "PartialPriv: 52"])
    by (vm_compute; reflexivity).
  assert (Hno : forall j, (1 <= j <= 6)%nat ->
                  candidate_address Sample.secp false P2PKH 2 (T j 5) <> "1u9").
  { intros j Hj. destruct j as [|[|[|[|[|[|[|j]]]]]]]; try lia;
      vm_compute; discriminate. }
  split; [exact Hfit|]. split; [exact Hno|].
  exact (proj1 (proj2 (unresolved_record_reported
                         (Sample.input ["PubAddress: 1u9"; "PartialPriv: 52"])
                         Sample.lib Sample.secp EmptyString 5 false
                         ["PubAddress: 1u9"; "PartialPriv: 52"] 0%nat 0 "1u9"
                         "52" P2PKH Hfit (Z.le_refl 0) ltac:(lia) eq_refl
                         eq_refl eq_refl eq_refl Hno))).
Defined.

Lemma unreadable_record_file_fatal_witness :
  0 <= fst (DecodePrivateKey Sample.secp "55")
  /\ read_file (Sample.os [] []) "missing.txt" = None
  /\ result (reconstructAdd (Sample.os [] []) Sample.lib Sample.secp
               "missing.txt" EmptyString "55") = Exits (-1).
Proof.
  assert (Hk : 0 <= fst (DecodePrivateKey Sample.secp "55"))
    by (vm_compute; discriminate).
  split; [exact Hk|]. split; [reflexivity|].
  rewrite (proj1 (unreadable_record_file_fatal (Sample.os [] []) Sample.lib
                    Sample.secp "missing.txt" EmptyString "55" Hk eq_refl)).
  reflexivity.
Defined.

Lemma run_outcomes_witness :
  (forall content,
      read_file (Sample.input Sample.odd_ending_in_address) "in.txt"
      = Some content -> fits_int (kept_lines content))
  /\ (result (Sample.run Sample.odd_ending_in_address "55") = Returns tt
      \/ result (Sample.run Sample.odd_ending_in_address "55") = Exits (-1)
      \/ exists content,
           read_file (Sample.input Sample.odd_ending_in_address) "in.txt"
           = Some content
           /\ result (Sample.run Sample.odd_ending_in_address "55")
              = BadIndex (Z.of_nat (List.length (kept_lines content)))
           /\ Nat.odd (List.length (kept_lines content)) = true).
Proof.
  assert (H : forall content,
             read_file (Sample.input Sample.odd_ending_in_address) "in.txt"
             = Some content -> fits_int (kept_lines content)).
  { intros content Hc. injection Hc as <-. vm_compute. reflexivity. }
  split; [exact H|].
  exact (run_outcomes (Sample.input Sample.odd_ending_in_address) Sample.lib
           Sample.secp "in.txt" EmptyString "55" H).
Defined.

Lemma wrong_compression_mode_skipped_witness :
  fits_int ["PubAddress: 1u7"; "PartialPriv: K2"]
  /\ fst (DecodePrivateKey Sample.secp "K2") = 2
  /\ snd (DecodePrivateKey Sample.secp "K2") <> false
  /\ Sample.record5 ["PubAddress: 1u7"; "PartialPriv: K2"] 0
     = ([msg_wrong_mode 0], Returns tt).
Proof.
  assert (Hfit : fits_int ["PubAddress: 1u7"; "PartialPriv: K2"])
    by (vm_compute; reflexivity).
  assert (Hm : snd (DecodePrivateKey Sample.secp "K2") <> false)
    by (vm_compute; discriminate).
  split; [exact Hfit|]. split; [reflexivity|]. split; [exact Hm|].
  exact (proj1 (wrong_compression_mode_skipped
                  (Sample.input ["PubAddress: 1u7"; "PartialPriv: K2"])
                  Sample.lib Sample.secp EmptyString lambda_secp256k1
                  lambda2_secp256k1 5 false
                  ["PubAddress: 1u7"; "PartialPriv: K2"] 0%nat 0 "1u7" "K2"
                  P2PKH Hfit (Z.le_refl 0) ltac:(lia) eq_refl eq_refl eq_refl
                  Hm)).
Defined.

Lemma generateKeyPair_both_modes_witness :
  (8 <= String.length "correct horse")%nat
  /\ generateKeyPair Sample.lib Sample.secp Sample.getSeed_zero
       "correct horse" SEARCH_BOTH true
     = ([EvGetSeed 32;
         EvPrintf (CLR_RED
           ++ "Error: Use compressed or uncompressed to generate a key pair"
           ++ CLR_RESET ++ LF)],
        Exits (-1)).
Proof.
  assert (H : (8 <= String.length "correct horse")%nat) by (simpl; lia).
  split; [exact H|].
  exact (proj1 (generateKeyPair_both_modes Sample.lib Sample.secp
                  Sample.getSeed_zero "correct horse" true H)).
Defined.

Lemma string_app_inv_l (p x y : string) : p ++ x = p ++ y -> x = y.
Proof.
  induction p as [|c p IH]; intros H; [exact H|].
  cbn in H. injection H as H. exact (IH H).
Qed.

Lemma dec_read_nonneg (a : Z) : 0 <= a -> digits_value 0 (dec a) = a.
Proof.
  intros Ha. unfold dec. pose proof (DecimalZ.of_to a) as Hz.
  destruct a as [|p|p]; [reflexivity | | lia].
  cbn [Z.to_int DecimalString.NilZero.string_of_int] in *.
  pose proof (digits_value_uint (Pos.to_uint p) EmptyString eq_refl) as H.
  rewrite string_app_nil_r in H. rewrite H. exact Hz.
Qed.

Lemma Sample_encoding_injective (t : AddrType) (c : bool) (a b : Z) :
  0 <= a < n_secp256k1 -> 0 <= b < n_secp256k1 ->
  GetAddress Sample.secp t c (ComputePublicKey Sample.secp a)
  = GetAddress Sample.secp t c (ComputePublicKey Sample.secp b) -> a = b.
Proof.
  intros Ha Hb H. cbn [GetAddress ComputePublicKey Sample.secp] in H.
  rewrite (proj2 (proj2 constants_of_main)) in H.
  rewrite !Z.mod_small in H by assumption.
  apply string_app_inv_l in H. apply string_app_inv_l in H.
  rewrite <- (dec_read_nonneg a), <- (dec_read_nonneg b), H by lia.
  reflexivity.
Qed.

Lemma at_most_one_emission_witness :
  Z.gcd 5 n_secp256k1 = 1
  /\ (forall e1 e2,
         In e1 (transforms 5) -> In e2 (transforms 5) ->
         candidate_address Sample.secp false P2PKH
           (fst (DecodePrivateKey Sample.secp "52")) e1 = "1u7" ->
         candidate_address Sample.secp false P2PKH
           (fst (DecodePrivateKey Sample.secp "52")) e2 = "1u7" ->
         candidate (fst (DecodePrivateKey Sample.secp "52")) e1
         = candidate (fst (DecodePrivateKey Sample.secp "52")) e2)
  /\ (nb_emissions (trace (Sample.record5 Sample.one_record 0)) <= 1)%nat.
Proof.
  assert (Hg : Z.gcd 5 n_secp256k1 = 1) by (vm_compute; reflexivity).
  assert (Hsame : forall e1 e2,
             In e1 (transforms 5) -> In e2 (transforms 5) ->
             candidate_address Sample.secp false P2PKH
               (fst (DecodePrivateKey Sample.secp "52")) e1 = "1u7" ->
             candidate_address Sample.secp false P2PKH
               (fst (DecodePrivateKey Sample.secp "52")) e2 = "1u7" ->
             candidate (fst (DecodePrivateKey Sample.secp "52")) e1
             = candidate (fst (DecodePrivateKey Sample.secp "52")) e2).
  { intros e1 e2 _ _ H1 H2. pose proof n_pos.
    apply (Sample_encoding_injective P2PKH false);
      try (unfold candidate; apply Z.mod_pos_bound; lia).
    unfold candidate_address in H1, H2. now rewrite H1, H2. }
  split; [exact Hg|]. split; [exact Hsame|].
  exact (proj2 (at_most_one_emission (Sample.input Sample.one_record) Sample.lib
                  Sample.secp EmptyString 5 false Sample.one_record 0 "1u7"
                  "52" P2PKH (Z.le_refl 0) ltac:(lia) eq_refl eq_refl eq_refl
                  eq_refl Hg Hsame)).
Defined.

Lemma getInts_converts_fields_witness :
  Forall2 (fun p v => stoi p = stoi_value v) (fields "," " 1,-2x,+30")
    [1; -2; 30]
  /\ getInts "gpuId" [7; 7] " 1,-2x,+30" "," = ([], Returns [1; -2; 30]).
Proof.
  assert (H : Forall2 (fun p v => stoi p = stoi_value v)
                (fields "," " 1,-2x,+30") [1; -2; 30])
    by (repeat constructor).
  split; [exact H|].
  exact (proj1 (getInts_converts_fields "gpuId" [7; 7] " 1,-2x,+30" ","
                  [1; -2; 30] H)).
Defined.

Lemma getInts_first_bad_field_witness :
  fields "," "1,,3" = (["1"] ++ EmptyString :: ["3"])%list
  /\ getInts "gridSize" [] "1,,3" ","
     = ([msg_number_expected "gridSize"], Exits (-1))
  /\ fields "," "1,99999999999,x" = (["1"] ++ "99999999999" :: ["x"])%list
  /\ getInts "gridSize" [] "1,99999999999,x" "," = ([], Throws).
Proof.
  assert (Hg : Forall2 (fun p v => stoi p = stoi_value v) ["1"] [1])
    by (repeat constructor).
  split; [reflexivity|]. split.
  - exact (getInts_first_bad_field "gridSize" [] "1,,3" "," ["1"] EmptyString
             ["3"] [1] eq_refl Hg ltac:(discriminate)).
  - split; [reflexivity|].
    exact (getInts_first_bad_field "gridSize" [] "1,99999999999,x" "," ["1"]
             "99999999999" ["x"] [1] eq_refl Hg ltac:(discriminate)).
Defined.

Lemma getInts_empty_field_witness :
  In EmptyString (fields "," "1,2,")
  /\ result (getInts "gpuId" [] "1,2," ",") <> Returns [1; 2].
Proof.
  assert (H : In EmptyString (fields "," "1,2,"))
    by (right; right; left; reflexivity).
  split; [exact H|].
  exact (getInts_empty_field "gpuId" [] "1,2," "," H [1; 2]).
Defined.

Lemma getInt_leading_number_witness :
  all_space "  " = true /\ starts_with_digit "abc" = false
  /\ getInt "nbCPUThread" ("  " ++ dec 12 ++ "abc") = ([], Returns 12)
  /\ getInt "maxFound" (dec 4294967296) = ([], Throws).
Proof.
  split; [reflexivity|]. split; [reflexivity|]. split.
  - exact (getInt_leading_number "nbCPUThread" "  " "abc" 12 eq_refl eq_refl).
  - pose proof (getInt_leading_number "maxFound" EmptyString EmptyString
                  4294967296 eq_refl eq_refl) as H.
    exact H.
Defined.

Lemma getInts_round_trip_witness :
  Forall (fun z => in_int_range z = true) [0; -128; 2147483647]
  /\ join "," (map dec [0; -128; 2147483647]) = "0,-128,2147483647"
  /\ getInts "gpuId" [] "0,-128,2147483647" ","
     = ([], Returns [0; -128; 2147483647]).
Proof.
  assert (H : Forall (fun z => in_int_range z = true) [0; -128; 2147483647])
    by (repeat constructor).
  split; [exact H|]. split; [reflexivity|].
  exact (getInts_round_trip "gpuId" [] [0; -128; 2147483647] ","
           ltac:(discriminate) H eq_refl ltac:(discriminate)).
Defined.

Lemma transforms_closed_witness :
  exists m, (1 <= m <= 6)%nat
            /\ T 2 (T 5 7) mod n_secp256k1 = T m 7 mod n_secp256k1.
Proof.
  exact (proj1 (transforms_closed 7) 2%nat 5%nat ltac:(lia) ltac:(lia)).
Defined.

(** ** The discipline of file handles *)

Local Close Scope string_scope.

Lemma well_bracketed_app (t1 t2 : list event) :
  forall opened,
    well_bracketed opened t1 = true ->
    well_bracketed opened (t1 ++ t2) = well_bracketed None t2.
Proof.
  induction t1 as [|e t1 IH]; intros opened H.
  - destruct opened; [discriminate H | reflexivity].
  - destruct e as [text|path mode ok|f text|path| | | |];
      cbn [app well_bracketed] in *; try (now apply IH).
    + destruct opened; [discriminate H | now apply IH].
    + destruct f as [|path]; [now apply IH|].
      apply andb_prop in H. destruct H as [Ho H]. rewrite Ho. now apply IH.
    + apply andb_prop in H. destruct H as [Ho H]. rewrite Ho. now apply IH.
Qed.

(** The state reached after a prefix of a well-bracketed trace. *)
Lemma well_bracketed_suffix (t1 t2 : list event) :
  forall opened,
    well_bracketed opened (t1 ++ t2) = true ->
    exists opened', well_bracketed opened' t2 = true.
Proof.
  induction t1 as [|e t1 IH]; intros opened H.
  - now exists opened.
  - destruct e as [text|path mode ok|f text|path| | | |];
      cbn [app well_bracketed] in H; try (now apply (IH opened)).
    + destruct opened; [discriminate H | exact (IH _ H)].
    + destruct f as [|path]; [exact (IH _ H)|].
      apply andb_prop in H. exact (IH _ (proj2 H)).
    + apply andb_prop in H. exact (IH _ (proj2 H)).
Qed.

(** With no file open and no successful open on the way, no close can
    come. *)
Lemma no_close_while_closed (mid : list event) (path : string)
    (post : list event) :
  forallb (fun e => negb (is_successful_open e)) mid = true ->
  well_bracketed None (mid ++ EvFclose path :: post) = false.
Proof.
  induction mid as [|e mid IH]; intros H; [reflexivity|].
  cbn [forallb] in H. apply andb_prop in H. destruct H as [He H].
  destruct e as [text|p mode ok|f text|p| | | |];
    cbn [app well_bracketed is_open andb]; try (now apply IH); try reflexivity.
  - destruct ok; [discriminate He | now apply IH].
  - destruct f; [now apply IH | reflexivity].
Qed.

Lemma failed_open_never_closed (t pre mid post : list event)
    (path mode closed : string) (opened : option string) :
  well_bracketed opened t = true ->
  t = pre ++ EvFopen path mode false :: mid ++ EvFclose closed :: post ->
  forallb (fun e => negb (is_successful_open e)) mid = true ->
  False.
Proof.
  intros Hwb -> Hmid.
  destruct (well_bracketed_suffix _ _ _ Hwb) as [o Ho].
  cbn [well_bracketed] in Ho. destruct o; [discriminate Ho|].
  rewrite (no_close_while_closed mid closed post Hmid) in Ho. discriminate Ho.
Qed.

Lemma emission_bracketed (os : OS) (outputFile : string) (t : AddrType)
    (addr pAddr pAddrHex : string) :
  well_bracketed None (emission os outputFile t addr pAddr pAddrHex) = true.
Proof.
  unfold emission. destruct outputFile as [|c o]; [reflexivity|].
  generalize (String c o) as p. intros p.
  destruct (can_append os p); unfold sink_record, cannot_open;
    cbn [app well_bracketed is_open]; rewrite ?String.eqb_refl; reflexivity.
Qed.

Section Bracketing.

Variable os : OS.
Variable lib : Lib.
Variable secp : Secp256K1.

Lemma attempts_bracketed (outputFile : string) (compressed : bool)
    (t : AddrType) (addr : string) (partial : Int) (es : list Int) :
  well_bracketed None
    (flat_map (attempt os lib secp outputFile compressed t addr partial) es)
  = true.
Proof.
  induction es as [|e es IH]; [reflexivity|].
  cbn [flat_map]. rewrite well_bracketed_app; [exact IH|].
  unfold attempt. cbn [well_bracketed].
  destruct (hit _ _ _ _ _ e); [apply emission_bracketed | reflexivity].
Qed.

Lemma record_bracketed (outputFile : string) (lambda lambda2 privKey : Int)
    (compressed : bool) (lines : list string) (i : Z) :
  well_bracketed None
    (trace (reconstruct_record os lib secp outputFile lambda lambda2 privKey
              compressed lines i)) = true.
Proof.
  destruct (Z.lt_ge_cases i 0) as [Hneg|Hi].
  { unfold reconstruct_record, vector_at.
    destruct (Z.ltb_spec i 0); [reflexivity | lia]. }
  destruct (nth_error lines (Z.to_nat i)) as [l0|] eqn:Hn.
  2:{ unfold reconstruct_record, vector_at. rewrite Hn.
      destruct (i <? 0); reflexivity. }
  destruct (String.prefix "PubAddress: " l0) eqn:Hp.
  2:{ now rewrite (record_bad_address_line _ _ _ _ _ _ _ _ _ _ _ Hi Hn Hp). }
  destruct (prefix_split _ _ Hp) as [addr ->].
  destruct (addrType_of (data0 addr)) as [t|] eqn:Ht.
  2:{ now rewrite (record_unsupported _ _ _ _ _ _ _ _ _ _ _ Hi Hn Ht). }
  destruct (nth_error lines (Z.to_nat (i + 1))) as [l1|] eqn:Hn1.
  2:{ assert (Hlen : Z.of_nat (List.length lines) <= i + 1).
      { apply nth_error_None in Hn1. lia. }
      now rewrite (record_no_second_line _ _ _ _ _ _ _ _ _ _ _ _ Hi Hn Ht Hlen). }
  destruct (String.prefix "PartialPriv: " l1) eqn:Hp1.
  2:{ now rewrite (record_bad_partial_line _ _ _ _ _ _ _ _ _ _ _ _ _
                     Hi Hn Ht Hn1 Hp1). }
  destruct (prefix_split _ _ Hp1) as [ptext ->].
  destruct (Z.lt_ge_cases privKey 0) as [Hk|Hk].
  - now rewrite (record_base_key_negative _ _ _ _ _ _ _ _ _ _ _ _ _
                   Hi Hn Ht Hn1 Hk).
  - rewrite (record_decoded _ _ _ _ _ _ _ _ _ _ _ _ _ Hi Hn Ht Hn1 Hk).
    destruct (negb _); [reflexivity|].
    rewrite reconstruct_key_attempts. cbn [trace fst].
    rewrite well_bracketed_app by apply attempts_bracketed.
    destruct (existsb _ _); reflexivity.
Qed.

Lemma loop_bracketed (outputFile : string) (lambda lambda2 privKey : Int)
    (compressed : bool) (lines : list string) (fuel : nat) (i : Z) :
  well_bracketed None
    (trace (reconstruct_loop os lib secp outputFile lambda lambda2 privKey
              compressed lines fuel i)) = true.
Proof.
  revert i. induction fuel as [|fuel IH]; intros i; cbn [reconstruct_loop].
  - destruct (_ <? _); reflexivity.
  - destruct (_ <? _); [|reflexivity].
    rewrite trace_bind, well_bracketed_app by apply record_bracketed.
    destruct (result (reconstruct_record _ _ _ _ _ _ _ _ _ i));
      try reflexivity.
    apply IH.
Qed.

Lemma parseFile_loop_bracketed (lp : bool) (nbAddr : Z)
    (input lines : list string) (nbLine : Z) :
  well_bracketed None (trace (parseFile_loop os lp nbAddr input lines nbLine))
  = true.
Proof.
  revert lines nbLine. induction input as [|l input IH]; intros lines nbLine.
  - reflexivity.
  - cbn [parseFile_loop]. destruct (0 <? String.length (rstrip l))%nat.
    + cbv zeta. destruct (lp && _).
      * unfold printf, emit. rewrite bind_Returns.
        cbn [trace fst app well_bracketed]. apply IH.
      * rewrite bind_ret_l. apply IH.
    + apply IH.
Qed.

Lemma parseFile_bracketed (fileName : string) (lines : list string) :
  well_bracketed None (trace (parseFile os fileName lines)) = true.
Proof.
  destruct (read_file os fileName) as [content|] eqn:Hr.
  2:{ now rewrite (parseFile_missing _ _ _ Hr). }
  unfold parseFile, fopen, fclose, emit. rewrite Hr.
  rewrite !bind_Returns. cbv zeta. cbn [trace fst].
  rewrite (surjective_M (parseFile_loop _ _ _ _ _ _)), parseFile_loop_result.
  rewrite bind_Returns.
  cbn [trace fst app well_bracketed is_open]. rewrite String.eqb_refl.
  cbn [andb].
  rewrite well_bracketed_app by apply parseFile_loop_bracketed.
  destruct (100000 <? _); unfold printf, emit, ret;
    rewrite ?bind_Returns; reflexivity.
Qed.

(** X12.  Files are used one at a time and every handle is released, in
    every run of [reconstructAdd] and however it ends.  An [fopen] is
    attempted only when no file is open; every [fprintf] to a file and
    every [fclose] names the file that is open at that moment, so a close
    is always the close of a successful open; no file is open when the
    run ends, and successful opens and closes are equal in number.  In
    particular a failed open is never followed by a close unless a
    successful open comes in between. *)
Theorem no_handle_leak (fileName outputFile privAddr : string) :
  well_bracketed None
    (trace (reconstructAdd os lib secp fileName outputFile privAddr)) = true
  /\ open_handles
       (trace (reconstructAdd os lib secp fileName outputFile privAddr)) = 0
  /\ (forall pre path mode mid closed post,
         trace (reconstructAdd os lib secp fileName outputFile privAddr)
         = pre ++ EvFopen path mode false :: mid ++ EvFclose closed :: post ->
         forallb (fun e => negb (is_successful_open e)) mid = true ->
         False).
Proof.
  assert (Hwb : well_bracketed None
                  (trace (reconstructAdd os lib secp fileName outputFile
                            privAddr)) = true).
  { unfold reconstructAdd. cbv zeta. rewrite trace_bind.
    destruct (IsNegative (fst (DecodePrivateKey secp privAddr)));
      [reflexivity|].
    cbn [ret trace result fst snd app].
    rewrite trace_bind, well_bracketed_app by apply parseFile_bracketed.
    destruct (result (parseFile os fileName [])); try reflexivity.
    apply loop_bracketed. }
  split; [exact Hwb|]. split.
  - unfold reconstructAdd. cbv zeta. rewrite trace_bind.
    destruct (IsNegative (fst (DecodePrivateKey secp privAddr)));
      [reflexivity|].
    cbn [ret trace result fst snd app].
    rewrite trace_bind, open_handles_app, parseFile_handles.
    destruct (result (parseFile os fileName [])); try reflexivity.
    apply loop_handles.
  - intros pre path mode mid closed post Ht Hmid.
    exact (failed_open_never_closed _ pre mid post path mode closed None
             Hwb Ht Hmid).
Qed.

End Bracketing.

Lemma no_handle_leak_witness :
  In (EvFopen "out.txt" "a" false)
    (trace (reconstructAdd
              (Sample.os [("in.txt"%string, Sample.unlines Sample.one_record)]
                 ["out.txt"%string])
              Sample.lib Sample.secp "in.txt" "out.txt" "55"))
  /\ well_bracketed None
       (trace (reconstructAdd
                 (Sample.os [("in.txt"%string, Sample.unlines Sample.one_record)]
                    ["out.txt"%string])
                 Sample.lib Sample.secp "in.txt" "out.txt" "55")) = true
  /\ ~ In (EvFclose "out.txt")
         (trace (reconstructAdd
                   (Sample.os
                      [("in.txt"%string, Sample.unlines Sample.one_record)]
                      ["out.txt"%string])
                   Sample.lib Sample.secp "in.txt" "out.txt" "55")).
Proof.
  split; [|split].
  - vm_compute. repeat (first [left; reflexivity | right]).
  - exact (proj1 (no_handle_leak
                    (Sample.os
                       [("in.txt"%string, Sample.unlines Sample.one_record)]
                       ["out.txt"%string])
                    Sample.lib Sample.secp "in.txt" "out.txt" "55")).
  - vm_compute. intros H.
    repeat (destruct H as [H|H]; [discriminate H|]). exact H.
Defined.
